(** * SteddockMacdEma200Rsi: the signal rules of the strategy

    A shallow embedding of [user_data/strategies/SteddockMacdEma200Rsi.py].
    The strategy works on a pandas [DataFrame] of candles: it stores the
    EMA200, MACD and RSI columns computed by TA-Lib, their one-step lags, and
    then marks the rows where the entry and the exit rule hold.

    - [Float]: the cells of a column, a finite number or NaN;
    - [pd]: the pandas operations the strategy uses (column read and write,
      element-wise comparison, [&], [|], [shift], [.loc[mask, col] = v]);
    - [ta]: the TA-Lib entry points, an interface ([TALib]) and the
      recurrences of the specification ([ta_spec]);
    - the strategy itself: [populate_indicators], [populate_entry_trend],
      [populate_exit_trend]. *)

From Stdlib Require Import QArith Lqa.
From stdpp Require Import gmap strings list fin_maps.

(** ** Cells *)

(** A cell of a float64 column.  [None] is NaN, pandas' marker of a missing
    value; [Some q] is the finite number [q].  Every comparison with NaN is
    false, as in IEEE 754.  Rounding and the infinities are left out: the
    strategy only compares cells, and finite doubles compare as the rationals
    they denote.  Arithmetic (only used by the indicators) keeps its results
    in lowest terms. *)
Module Float.

Definition float : Type := option Q.

Definition nan : float := None.
Definition of_Q (q : Q) : float := Some q.
(** A Python [int] met by a float column is converted to the float of the
    same value. *)
Definition of_int (z : Z) : float := Some (inject_Z z).
Definition of_nat (n : nat) : float := of_int (Z.of_nat n).

Definition Qltb (a b : Q) : bool := negb (Qle_bool b a).

Definition ltb (x y : float) : bool :=
  match x, y with Some a, Some b => Qltb a b | _, _ => false end.
Definition leb (x y : float) : bool :=
  match x, y with Some a, Some b => Qle_bool a b | _, _ => false end.
Definition gtb (x y : float) : bool := ltb y x.
Definition geb (x y : float) : bool := leb y x.
Definition eqb (x y : float) : bool :=
  match x, y with Some a, Some b => Qeq_bool a b | _, _ => false end.

(** The comparisons as propositions, for the statements. *)
Definition lt (x y : float) : Prop :=
  match x, y with Some a, Some b => (a < b)%Q | _, _ => False end.
Definition le (x y : float) : Prop :=
  match x, y with Some a, Some b => (a <= b)%Q | _, _ => False end.
Definition gt (x y : float) : Prop := lt y x.
Definition ge (x y : float) : Prop := le y x.

Definition isnan (x : float) : Prop := x = nan.

Definition lift2 (f : Q -> Q -> Q) (x y : float) : float :=
  match x, y with Some a, Some b => Some (Qred (f a b)) | _, _ => None end.

Definition add : float -> float -> float := lift2 Qplus.
Definition sub : float -> float -> float := lift2 Qminus.
Definition mul : float -> float -> float := lift2 Qmult.
(** A quotient by zero is not a finite number. *)
Definition div (x y : float) : float :=
  if eqb y (of_int 0) then nan else lift2 Qdiv x y.

End Float.

Export Float(float).

Declare Scope float_scope.
Delimit Scope float_scope with float.
Bind Scope float_scope with float.
Infix "<" := Float.lt : float_scope.
Infix "<=" := Float.le : float_scope.
Infix ">" := Float.gt : float_scope.
Infix ">=" := Float.ge : float_scope.
Infix "+" := Float.add : float_scope.
Infix "-" := Float.sub : float_scope.
Infix "*" := Float.mul : float_scope.
Infix "/" := Float.div : float_scope.

(** ** pandas *)

(** A column: one cell per row, in row order. *)
Abbreviation Series := (list float).
(** The result of an element-wise comparison: one boolean per row. *)
Abbreviation Mask := (list bool).

Module pd.

(** [s.iloc[t]], NaN where the series has no row [t]. *)
Definition iloc (s : Series) (t : nat) : float := default Float.nan (s !! t).

(** [a > b], [a < b], [a >= b], [a <= b] on two columns of one frame. *)
Definition gt (a b : Series) : Mask := zip_with Float.gtb a b.
Definition lt (a b : Series) : Mask := zip_with Float.ltb a b.
Definition ge (a b : Series) : Mask := zip_with Float.geb a b.
Definition le (a b : Series) : Mask := zip_with Float.leb a b.

(** A column against a scalar, which is broadcast to every row. *)
Definition gt_scalar (a : Series) (x : float) : Mask := (fun v => Float.gtb v x) <$> a.
Definition lt_scalar (a : Series) (x : float) : Mask := (fun v => Float.ltb v x) <$> a.
Definition ge_scalar (a : Series) (x : float) : Mask := (fun v => Float.geb v x) <$> a.
Definition le_scalar (a : Series) (x : float) : Mask := (fun v => Float.leb v x) <$> a.

(** [m1 & m2] and [m1 | m2]. *)
Definition and_ (m1 m2 : Mask) : Mask := zip_with andb m1 m2.
Definition or_ (m1 m2 : Mask) : Mask := zip_with orb m1 m2.

(** [s.shift(1)]: every cell moves one row down, the first row becomes NaN
    and the last cell is dropped. *)
Definition shift (s : Series) : Series := take (length s) (Float.nan :: s).

(** A frame: [index] rows (a RangeIndex) and the named columns.  A frame is
    its cells by column name: the order in which pandas lists the columns is
    not kept. *)
Record DataFrame : Type := mkDataFrame {
  index : nat;
  columns : gmap string Series
}.

(** Every column of a frame has one cell per row. *)
Definition wf (df : DataFrame) : Prop :=
  map_Forall (fun _ s => length s = index df) (columns df).

(** [df[c]]; [None] stands for the [KeyError] of a missing column. *)
Definition getitem (df : DataFrame) (c : string) : option Series :=
  columns df !! c.

(** [df[c] = s].  The frame is changed in place; the changed frame is the
    result.  pandas aligns [s] on the index of the frame: rows that [s]
    lacks are NaN, rows beyond the index are dropped. *)
Definition setitem (df : DataFrame) (c : string) (s : Series) : DataFrame :=
  {| index := index df;
     columns := <[c := resize (index df) Float.nan s]> (columns df) |}.

(** [df.loc[mask, c] = v]: the cell of column [c] becomes [v] in the rows
    where [mask] is true and is left as it is in the others.  A column that
    does not exist yet is created first, filled with NaN.  (On a frame
    without rows pandas refuses to create the column, with a [ValueError];
    that refusal is not modelled.) *)
Definition loc_setitem (df : DataFrame) (mask : Mask) (c : string) (v : float)
  : DataFrame :=
  let old := default (replicate (index df) Float.nan) (columns df !! c) in
  {| index := index df;
     columns :=
       <[c := zip_with (fun (m : bool) o => if m then v else o) mask old]>
         (columns df) |}.

(** [df.iloc[:n]], the first [n] rows. *)
Definition head (n : nat) (df : DataFrame) : DataFrame :=
  {| index := Nat.min n (index df);
     columns := take n <$> columns df |}.

(** The cell of column [c] at row [t]; NaN if there is none. *)
Definition cell (df : DataFrame) (c : string) (t : nat) : float :=
  default Float.nan (columns df !! c ≫= fun s => s !! t).

(** The cell one row earlier, [df[c].shift(1)] at row [t]. *)
Definition lag (df : DataFrame) (c : string) (t : nat) : float :=
  match t with
  | O => Float.nan
  | S k => cell df c k
  end.

End pd.

Export pd(DataFrame).

Declare Scope mask_scope.
Delimit Scope mask_scope with mask.
Infix "&" := pd.and_ (at level 40, left associativity) : mask_scope.
Infix "|||" := pd.or_ (at level 50, left associativity) : mask_scope.

(** ** TA-Lib *)

(** The function API of TA-Lib, on arrays.  The library is not part of the
    repository: the strategy is embedded against this interface, and what
    is proved about the rules holds for every implementation of it.  The
    functions are total here: the errors that TA-Lib itself raises (a time
    period outside 2..100000, an input without a defined value) are not
    modelled. *)
Module talib.

Record MACDResult : Type := mkMACD {
  macd : Series;
  macdsignal : Series;
  macdhist : Series
}.

Class TALib : Type := {
  EMA : Series -> nat -> Series;
  MACD : Series -> nat -> nat -> nat -> MACDResult;
  RSI : Series -> nat -> Series
}.

End talib.

Export talib(TALib).

(** [talib.abstract], imported as [ta]: the same functions called on a frame.
    All three read the price from the column [close], and fail on a frame
    that has none. *)
Module ta.

Definition EMA `{TALib} (dataframe : DataFrame) (timeperiod : nat)
  : option Series :=
  real ← pd.getitem dataframe "close";
  Some (talib.EMA real timeperiod).

(** [fastperiod=12, slowperiod=26, signalperiod=9] are the defaults. *)
Definition MACD `{TALib} (dataframe : DataFrame) : option talib.MACDResult :=
  real ← pd.getitem dataframe "close";
  Some (talib.MACD real 12 26 9).

Definition RSI `{TALib} (dataframe : DataFrame) (timeperiod : nat)
  : option Series :=
  real ← pd.getitem dataframe "close";
  Some (talib.RSI real timeperiod).

End ta.

(** The indicators as the specification defines them (section 4.1), each a
    single pass over the prices with rolling accumulators. *)
Module ta_spec.

(** One pass: [step] reads the next cell, emits one cell and its new
    accumulator. *)
Fixpoint scan {S : Type} (step : S -> float -> S * float) (st : S)
    (xs : Series) : Series :=
  match xs with
  | [] => []
  | x :: xs' => let '(st', y) := step st x in y :: scan step st' xs'
  end.

(** [alpha = 2 / (window + 1)]. *)
Definition alpha (window : nat) : float :=
  (Float.of_int 2 / (Float.of_nat window + Float.of_int 1))%float.

(** The accumulator of the EMA: nothing seen yet, or the count of cells
    since the seed and the running average. *)
Inductive ema_state : Type :=
| Unseeded
| Seeded (count : nat) (ema : float).

(** Modelled from the spec: [ta.EMA] is TA-Lib's, not the repository's.
    [ema[0] = close[0]]; for [t > 0],
    [ema[t] = alpha * close[t] + (1 - alpha) * ema[t-1]]; the first
    [window - 1] positions are undefined.  The undefined cells that lead the
    input (the MACD line before its slow window is full) come before
    position 0 of the recurrence. *)
Definition ema_step (window : nat) (st : ema_state) (x : float)
  : ema_state * float :=
  match st with
  | Unseeded =>
      match x with
      | None => (Unseeded, Float.nan)
      | Some _ => (Seeded 1 x, if window <=? 1 then x else Float.nan)
      end
  | Seeded count ema =>
      let ema' :=
        (alpha window * x + (Float.of_int 1 - alpha window) * ema)%float in
      (Seeded (S count) ema',
       if window <=? S count then ema' else Float.nan)
  end.

Definition EMA (real : Series) (timeperiod : nat) : Series :=
  scan (ema_step timeperiod) Unseeded real.

(** Modelled from the spec: [ta.MACD] is TA-Lib's, not the repository's.
    [macd = ema_fast(close) - ema_slow(close)];
    [macd_signal = ema_signal(macd)]; [macd_hist = macd - macd_signal]. *)
Definition MACD (real : Series) (fastperiod slowperiod signalperiod : nat)
  : talib.MACDResult :=
  let macd := zip_with Float.sub (EMA real fastperiod) (EMA real slowperiod) in
  let macdsignal := EMA macd signalperiod in
  {| talib.macd := macd;
     talib.macdsignal := macdsignal;
     talib.macdhist := zip_with Float.sub macd macdsignal |}.

(** The accumulator of the RSI: no price yet; the sums of the gains and
    losses of the first [count] changes; Wilder's averages. *)
Inductive rsi_state : Type :=
| Start
| Warming (prev : float) (count : nat) (sum_gain sum_loss : float)
| Smoothing (prev : float) (avg_gain avg_loss : float).

(** The part of a change that is a rise (or, of the opposite change, a
    fall); NaN stays NaN. *)
Definition positive_part (d : float) : float :=
  match d with
  | None => Float.nan
  | Some q => Some (if Float.Qltb 0 q then q else 0%Q)
  end.

(** [rsi = 100 - 100 / (1 + RS)], [RS = avg_gain / avg_loss];
    [rsi = 100] if [avg_loss == 0]. *)
Definition rsi_value (avg_gain avg_loss : float) : float :=
  if Float.eqb avg_loss (Float.of_int 0) then Float.of_int 100
  else (Float.of_int 100
        - Float.of_int 100 / (Float.of_int 1 + avg_gain / avg_loss))%float.

(** Modelled from the spec: [ta.RSI] is TA-Lib's, not the repository's.
    Wilder's method: the average gain and loss of the first [window]
    changes, then [avg = (avg * (window - 1) + change) / window]; the first
    [window] positions are undefined. *)
Definition rsi_step (window : nat) (st : rsi_state) (x : float)
  : rsi_state * float :=
  match st with
  | Start => (Warming x 0 (Float.of_int 0) (Float.of_int 0), Float.nan)
  | Warming prev count sum_gain sum_loss =>
      let sum_gain := (sum_gain + positive_part (x - prev))%float in
      let sum_loss := (sum_loss + positive_part (prev - x))%float in
      if S count =? window then
        let avg_gain := (sum_gain / Float.of_nat window)%float in
        let avg_loss := (sum_loss / Float.of_nat window)%float in
        (Smoothing x avg_gain avg_loss, rsi_value avg_gain avg_loss)
      else (Warming x (S count) sum_gain sum_loss, Float.nan)
  | Smoothing prev avg_gain avg_loss =>
      let smooth avg change :=
        ((avg * Float.of_nat (window - 1) + change)
         / Float.of_nat window)%float in
      let avg_gain := smooth avg_gain (positive_part (x - prev)) in
      let avg_loss := smooth avg_loss (positive_part (prev - x)) in
      (Smoothing x avg_gain avg_loss, rsi_value avg_gain avg_loss)
  end.

Definition RSI (real : Series) (timeperiod : nat) : Series :=
  scan (rsi_step timeperiod) Start real.

#[export] Instance spec : TALib :=
  {| talib.EMA := EMA; talib.MACD := MACD; talib.RSI := RSI |}.

End ta_spec.

(** ** The strategy *)

(** [IntParameter(low, high, default=...)]: a tunable integer; [value] is the
    one in force. *)
Record IntParameter : Type := mkIntParameter {
  low : Z;
  high : Z;
  value : Z
}.

(** The attributes of the strategy object that the three methods read. *)
Record IStrategy : Type := mkStrategy {
  startup_candle_count : nat;
  ema_length : nat;
  rsi_entry_low : IntParameter;
  rsi_entry_high : IntParameter;
  rsi_exit : Z
}.

(** The class as it is declared: the default configuration. *)
Definition SteddockMacdEma200Rsi : IStrategy :=
  {| startup_candle_count := 210;
     ema_length := 200;
     rsi_entry_low := mkIntParameter 45 50 45;
     rsi_entry_high := mkIntParameter 50 55 55;
     rsi_exit := 30 |}.

(** The [metadata] argument of the three methods (the pair and the like). *)
Definition Dict : Type := gmap string string.

Section strategy.

Context `{TA : TALib}.

Definition populate_indicators (self : IStrategy) (dataframe : DataFrame)
    (metadata : Dict) : option DataFrame :=
  (* EMA200 *)
  ema200 ← ta.EMA dataframe (ema_length self);
  let dataframe := pd.setitem dataframe "ema200" ema200 in
  ema200 ← pd.getitem dataframe "ema200";
  let dataframe := pd.setitem dataframe "ema200_prev" (pd.shift ema200) in
  (* MACD *)
  macd ← ta.MACD dataframe;
  let dataframe := pd.setitem dataframe "macd" (talib.macd macd) in
  let dataframe := pd.setitem dataframe "macdsignal" (talib.macdsignal macd) in
  let dataframe := pd.setitem dataframe "macdhist" (talib.macdhist macd) in
  macd_col ← pd.getitem dataframe "macd";
  let dataframe := pd.setitem dataframe "macd_prev" (pd.shift macd_col) in
  macdsignal_col ← pd.getitem dataframe "macdsignal";
  let dataframe :=
    pd.setitem dataframe "macdsignal_prev" (pd.shift macdsignal_col) in
  (* RSI *)
  rsi ← ta.RSI dataframe 14;
  let dataframe := pd.setitem dataframe "rsi" rsi in
  Some dataframe.

(** The rows at which the entry rule holds. *)
Definition entry_mask (self : IStrategy) (dataframe : DataFrame)
  : option Mask :=
  close ← pd.getitem dataframe "close";
  ema200 ← pd.getitem dataframe "ema200";
  ema200_prev ← pd.getitem dataframe "ema200_prev";
  macd ← pd.getitem dataframe "macd";
  macdsignal ← pd.getitem dataframe "macdsignal";
  macd_prev ← pd.getitem dataframe "macd_prev";
  macdsignal_prev ← pd.getitem dataframe "macdsignal_prev";
  rsi ← pd.getitem dataframe "rsi";
  Some (
    (* Regime filter *)
    pd.gt close ema200
    & pd.gt ema200 ema200_prev
    (* MACD bullish cross *)
    & pd.gt macd macdsignal
    & pd.le macd_prev macdsignal_prev
    (* RSI timing filter *)
    & pd.ge_scalar rsi (Float.of_int (value (rsi_entry_low self)))
    & pd.le_scalar rsi (Float.of_int (value (rsi_entry_high self)))
  )%mask.

Definition populate_entry_trend (self : IStrategy) (dataframe : DataFrame)
    (metadata : Dict) : option DataFrame :=
  mask ← entry_mask self dataframe;
  Some (pd.loc_setitem dataframe mask "enter_long" (Float.of_int 1)).

(** The rows at which the exit rule holds. *)
Definition exit_mask (self : IStrategy) (dataframe : DataFrame)
  : option Mask :=
  macd ← pd.getitem dataframe "macd";
  macdsignal ← pd.getitem dataframe "macdsignal";
  macd_prev ← pd.getitem dataframe "macd_prev";
  macdsignal_prev ← pd.getitem dataframe "macdsignal_prev";
  rsi ← pd.getitem dataframe "rsi";
  close ← pd.getitem dataframe "close";
  ema200 ← pd.getitem dataframe "ema200";
  Some (
    (* MACD bearish cross *)
    (pd.lt macd macdsignal & pd.ge macd_prev macdsignal_prev)
    (* RSI breakdown *)
    ||| pd.lt_scalar rsi (Float.of_int (rsi_exit self))
    (* Regime violation *)
    ||| pd.lt close ema200
  )%mask.

Definition populate_exit_trend (self : IStrategy) (dataframe : DataFrame)
    (metadata : Dict) : option DataFrame :=
  mask ← exit_mask self dataframe;
  Some (pd.loc_setitem dataframe mask "exit_long" (Float.of_int 1)).

(** The three methods in the order in which the host calls them on a frame
    of candles. *)
Definition analyze_ticker (self : IStrategy) (dataframe : DataFrame)
    (metadata : Dict) : option DataFrame :=
  dataframe ← populate_indicators self dataframe metadata;
  dataframe ← populate_entry_trend self dataframe metadata;
  populate_exit_trend self dataframe metadata.

End strategy.

(** A frame of candles: the OHLCV columns, none of the signal columns yet. *)
Definition no_signals (df : DataFrame) : Prop :=
  pd.columns df !! "enter_long" = None /\ pd.columns df !! "exit_long" = None.

(** A signal cell is set when the rule has written 1 to it. *)
Definition is_set (x : float) : Prop := x = Float.of_int 1.

(** A frame with the single column [close]. *)
Definition closes (real : Series) : DataFrame :=
  {| pd.index := length real; pd.columns := {["close" := real]} |}.

Definition ints (l : list Z) : Series := Float.of_int <$> l.


(** The value of a mask at row [t]; false where the mask has no row [t]. *)
Definition holds (m : Mask) (t : nat) : bool := default false (m !! t).

(** The entry rule at one row, on the cells of the frame. *)
Definition entry_rule (self : IStrategy) (df : DataFrame) (t : nat) : Prop :=
  (pd.cell df "close" t > pd.cell df "ema200" t
   /\ pd.cell df "ema200" t > pd.cell df "ema200_prev" t
   /\ pd.cell df "macd" t > pd.cell df "macdsignal" t
   /\ pd.cell df "macd_prev" t <= pd.cell df "macdsignal_prev" t
   /\ pd.cell df "rsi" t >= Float.of_int (value (rsi_entry_low self))
   /\ pd.cell df "rsi" t <= Float.of_int (value (rsi_entry_high self)))%float.

(** The exit rule at one row, on the cells of the frame. *)
Definition exit_rule (self : IStrategy) (df : DataFrame) (t : nat) : Prop :=
  ((pd.cell df "macd" t < pd.cell df "macdsignal" t
    /\ pd.cell df "macd_prev" t >= pd.cell df "macdsignal_prev" t)
   \/ pd.cell df "rsi" t < Float.of_int (rsi_exit self)
   \/ pd.cell df "close" t < pd.cell df "ema200" t)%float.

(** The conditions of the two rules at row [t], on the candles and on the
    frame [df] that holds their indicators.  The value one row earlier is
    undefined at row 0. *)
Section conditions.

Variables (self : IStrategy) (candles df : DataFrame) (t : nat).

(** Price above the long-term trend. *)
Definition price_above_ema : Prop :=
  (pd.cell candles "close" t > pd.cell df "ema200" t)%float.

(** The trend is rising. *)
Definition ema_rising : Prop :=
  (pd.cell df "ema200" t > pd.lag df "ema200" t)%float.

(** The MACD line was at or below its signal line and is above it now. *)
Definition macd_bullish_cross : Prop :=
  (pd.cell df "macd" t > pd.cell df "macdsignal" t
   /\ pd.lag df "macd" t <= pd.lag df "macdsignal" t)%float.

(** The RSI is within the entry band, both bounds included. *)
Definition rsi_in_band : Prop :=
  (Float.of_int (value (rsi_entry_low self)) <= pd.cell df "rsi" t
   /\ pd.cell df "rsi" t <= Float.of_int (value (rsi_entry_high self)))%float.

(** The MACD line was at or above its signal line and is below it now. *)
Definition macd_bearish_cross : Prop :=
  (pd.cell df "macd" t < pd.cell df "macdsignal" t
   /\ pd.lag df "macd" t >= pd.lag df "macdsignal" t)%float.

(** The RSI is below the exit threshold. *)
Definition rsi_breakdown : Prop :=
  (pd.cell df "rsi" t < Float.of_int (rsi_exit self))%float.

(** The price closes below the long-term trend. *)
Definition regime_violation : Prop :=
  (pd.cell candles "close" t < pd.cell df "ema200" t)%float.

End conditions.

(** A cell that, if defined, is not negative; a cell that, if defined, lies
    between 0 and 100. *)
Definition nonneg (x : float) : Prop :=
  match x with Some q => (0 <= q)%Q | None => True end.
Definition percent (x : float) : Prop :=
  match x with Some q => (0 <= q <= 100)%Q | None => True end.

(** The sums and the averages that the RSI accumulates are not negative. *)
Definition rsi_inv (st : ta_spec.rsi_state) : Prop :=
  match st with
  | ta_spec.Start => True
  | ta_spec.Warming _ _ sum_gain sum_loss => nonneg sum_gain /\ nonneg sum_loss
  | ta_spec.Smoothing _ avg_gain avg_loss => nonneg avg_gain /\ nonneg avg_loss
  end.

(** An implementation of TA-Lib is causal when the first [k] cells of each
    indicator are computed from the first [k] prices alone. *)
Definition causal (TA : TALib) : Prop :=
  (forall real n k, talib.EMA (take k real) n = take k (talib.EMA real n))
  /\ (forall real fast slow signal k,
        talib.macd (talib.MACD (take k real) fast slow signal)
        = take k (talib.macd (talib.MACD real fast slow signal))
        /\ talib.macdsignal (talib.MACD (take k real) fast slow signal)
           = take k (talib.macdsignal (talib.MACD real fast slow signal))
        /\ talib.macdhist (talib.MACD (take k real) fast slow signal)
           = take k (talib.macdhist (talib.MACD real fast slow signal)))
  /\ (forall real n k, talib.RSI (take k real) n = take k (talib.RSI real n)).

(** A value that a condition reads at row [t] is undefined. *)
Section undefined.

Variables (candles df : DataFrame) (t : nat).

Definition entry_undefined : Prop :=
  Float.isnan (pd.cell candles "close" t)
  \/ Float.isnan (pd.cell df "ema200" t)
  \/ Float.isnan (pd.lag df "ema200" t)
  \/ Float.isnan (pd.cell df "macd" t)
  \/ Float.isnan (pd.cell df "macdsignal" t)
  \/ Float.isnan (pd.lag df "macd" t)
  \/ Float.isnan (pd.lag df "macdsignal" t)
  \/ Float.isnan (pd.cell df "rsi" t).

Definition macd_cross_undefined : Prop :=
  Float.isnan (pd.cell df "macd" t)
  \/ Float.isnan (pd.cell df "macdsignal" t)
  \/ Float.isnan (pd.lag df "macd" t)
  \/ Float.isnan (pd.lag df "macdsignal" t).

Definition rsi_undefined : Prop := Float.isnan (pd.cell df "rsi" t).

Definition regime_undefined : Prop :=
  Float.isnan (pd.cell candles "close" t)
  \/ Float.isnan (pd.cell df "ema200" t).

End undefined.

(** [df'] is [df] with nothing changed but column [c], and in that column
    nothing but the rows at which [rule] holds, which are set. *)
Definition writes_only (c : string) (rule : nat -> Prop) (df df' : DataFrame)
  : Prop :=
  pd.index df' = pd.index df
  /\ (forall c', c' <> c -> pd.columns df' !! c' = pd.columns df !! c')
  /\ (forall t, ~ rule t -> pd.cell df' c t = pd.cell df c t)
  /\ (forall t, rule t -> is_set (pd.cell df' c t)).

(** A series that is flat for 197 candles, then dips and recovers. *)
Definition dip_and_recover : Series :=
  ints (replicate 197 100 ++ [97; 103; 98; 101])%Z.

(** Fifteen candles, each closing one below the one before. *)
Definition falling : Series :=
  ints [114; 113; 112; 111; 110; 109; 108; 107; 106; 105; 104; 103; 102; 101;
        100]%Z.

(** The frame of the fifteen falling candles while the indicators warm up:
    the RSI is defined at the last row only (it is 0, no candle has risen);
    the EMA200 and the MACD columns are undefined throughout. *)
Definition warming_up : DataFrame :=
  let undefined := replicate 15 Float.nan in
  {| pd.index := 15;
     pd.columns :=
       list_to_map
         [("close", falling); ("ema200", undefined);
          ("ema200_prev", undefined); ("macd", undefined);
          ("macdsignal", undefined); ("macdhist", undefined);
          ("macd_prev", undefined); ("macdsignal_prev", undefined);
          ("rsi", replicate 14 Float.nan ++ [Float.of_int 0])] |}.

(** The frame has every column of [cs]. *)
Definition has_columns (df : DataFrame) (cs : list string) : Prop :=
  Forall (fun c => is_Some (pd.getitem df c)) cs.

(** The columns that [populate_indicators] writes. *)
Definition indicator_columns : list string :=
  ["ema200"; "ema200_prev"; "macd"; "macdsignal"; "macdhist"; "macd_prev";
   "macdsignal_prev"; "rsi"].

(** The columns that the entry rule reads, and those that the exit rule
    reads. *)
Definition entry_columns : list string :=
  ["close"; "ema200"; "ema200_prev"; "macd"; "macdsignal"; "macd_prev";
   "macdsignal_prev"; "rsi"].
Definition exit_columns : list string :=
  ["macd"; "macdsignal"; "macd_prev"; "macdsignal_prev"; "rsi"; "close";
   "ema200"].

(** The frame that [populate_indicators] leaves when the column [close] is
    [real]: the eight indicator columns on top of the columns of the input. *)
Definition with_indicators `{TA : TALib} (self : IStrategy) (df : DataFrame)
    (real : Series) : DataFrame :=
  let n := pd.index df in
  let fit := resize n Float.nan in
  let ema200 := fit (talib.EMA real (ema_length self)) in
  let macd := talib.MACD real 12 26 9 in
  {| pd.index := n;
     pd.columns :=
       <["rsi" := fit (talib.RSI real 14)]>
       (<["macdsignal_prev" := fit (pd.shift (fit (talib.macdsignal macd)))]>
       (<["macd_prev" := fit (pd.shift (fit (talib.macd macd)))]>
       (<["macdhist" := fit (talib.macdhist macd)]>
       (<["macdsignal" := fit (talib.macdsignal macd)]>
       (<["macd" := fit (talib.macd macd)]>
       (<["ema200_prev" := fit (pd.shift ema200)]>
       (<["ema200" := ema200]> (pd.columns df)))))))) |}.

(** The frame of a series of closing prices with its indicators, as the
    specification computes them, under the default configuration. *)
Definition spec_indicators (real : Series) : DataFrame :=
  with_indicators (TA := ta_spec.spec) SteddockMacdEma200Rsi (closes real) real.

(** The frame that the three methods leave of a series of closing prices,
    with the indicators of the specification and the default
    configuration. *)
Definition spec_run (real : Series) : DataFrame :=
  default (closes real)
    (analyze_ticker (TA := ta_spec.spec) SteddockMacdEma200Rsi
       (closes real) ∅).

(** The frame [warming_up] with both signals already set at every row, as an
    earlier run on other data could have left them. *)
Definition signalled : DataFrame :=
  let ones := replicate 15 (Float.of_int 1) in
  pd.setitem (pd.setitem warming_up "enter_long" ones) "exit_long" ones.

(** Two frames have as many rows and the same cells in the columns [cs]. *)
Definition agree_on (cs : list string) (df df' : DataFrame) : Prop :=
  pd.index df = pd.index df'
  /\ forall c, c ∈ cs -> pd.getitem df c = pd.getitem df' c.

(** The fifteen falling candles with a column [volume] beside [close]. *)
Definition falling_with_volume : DataFrame :=
  pd.setitem (closes falling) "volume" (replicate 15 (Float.of_int 1000)).

(** The default configuration with the RSI band turned upside down. *)
Definition inverted_band : IStrategy :=
  {| startup_candle_count := 210;
     ema_length := 200;
     rsi_entry_low := mkIntParameter 45 50 55;
     rsi_entry_high := mkIntParameter 50 55 45;
     rsi_exit := 30 |}.

(** The default configuration with a wider RSI band and a higher exit
    threshold. *)
Definition wider_band : IStrategy :=
  {| startup_candle_count := 210;
     ema_length := 200;
     rsi_entry_low := mkIntParameter 45 50 40;
     rsi_entry_high := mkIntParameter 50 55 60;
     rsi_exit := 35 |}.

(** Two frames have as many rows and, under every column name, the same
    cells.  The position of a column among the columns is no part of it. *)
Definition same_cells (df df' : DataFrame) : Prop :=
  pd.index df = pd.index df'
  /\ forall c, pd.getitem df c = pd.getitem df' c.

(** The two columns that the rules write. *)
Definition signal_columns : list string := ["enter_long"; "exit_long"].

(** The value in force of a tunable integer lies in its declared range. *)
Definition in_space (p : IntParameter) : Prop :=
  (low p <= value p <= high p)%Z.

(** The ranges and the exit threshold as the class declares them:
    [IntParameter(45, 50, ...)], [IntParameter(50, 55, ...)] and
    [rsi_exit = 30]; the values in force are whatever the optimizer picked
    within the ranges. *)
Definition declared_space (self : IStrategy) : Prop :=
  low (rsi_entry_low self) = 45%Z /\ high (rsi_entry_low self) = 50%Z
  /\ low (rsi_entry_high self) = 50%Z /\ high (rsi_entry_high self) = 55%Z
  /\ rsi_exit self = 30%Z
  /\ in_space (rsi_entry_low self) /\ in_space (rsi_entry_high self).

(** * Properties *)

(** ** Cells *)

Section float_facts.

Implicit Types x y : float.

Lemma Qltb_lt (a b : Q) : Float.Qltb a b = true <-> (a < b)%Q.
Proof.
  unfold Float.Qltb. rewrite negb_true_iff, <- not_true_iff_false, Qle_bool_iff.
  split; [apply Qnot_le_lt | apply Qlt_not_le].
Qed.

Lemma ltb_lt x y : Float.ltb x y = true <-> (x < y)%float.
Proof. destruct x, y; simpl; try easy. apply Qltb_lt. Qed.

Lemma leb_le x y : Float.leb x y = true <-> (x <= y)%float.
Proof. destruct x, y; simpl; try easy. apply Qle_bool_iff. Qed.

Lemma gtb_gt x y : Float.gtb x y = true <-> (x > y)%float.
Proof. apply ltb_lt. Qed.

Lemma geb_ge x y : Float.geb x y = true <-> (x >= y)%float.
Proof. apply leb_le. Qed.

(** No comparison holds of NaN. *)
Lemma lt_nan_l y : ~ (Float.nan < y)%float.
Proof. easy. Qed.
Lemma lt_nan_r x : ~ (x < Float.nan)%float.
Proof. destruct x; easy. Qed.
Lemma le_nan_l y : ~ (Float.nan <= y)%float.
Proof. easy. Qed.
Lemma le_nan_r x : ~ (x <= Float.nan)%float.
Proof. destruct x; easy. Qed.

(** The order of the cells is the order of the numbers. *)
Lemma lt_not_ge x y : (x < y)%float -> ~ (x >= y)%float.
Proof. destruct x, y; simpl; try easy. apply Qlt_not_le. Qed.

Lemma lt_asym x y : (x < y)%float -> ~ (y < x)%float.
Proof.
  destruct x, y; simpl; try easy. intros H1 H2.
  exact (Qlt_irrefl _ (Qlt_trans _ _ _ H1 H2)).
Qed.

Lemma lt_le_trans x y z : (x < y)%float -> (y <= z)%float -> (x < z)%float.
Proof. destruct x, y, z; simpl; try easy. apply Qlt_le_trans. Qed.

Lemma of_int_le (a b : Z) :
  (a <= b)%Z -> (Float.of_int a <= Float.of_int b)%float.
Proof. simpl. now rewrite <- Zle_Qle. Qed.

End float_facts.

(** ** Masks and frames *)

Section pandas_facts.

Implicit Types (a b s : Series) (m : Mask) (df : DataFrame) (c : string).

Lemma holds_zip_with (f : float -> float -> bool) a b t :
  (forall x, f x Float.nan = false) -> (forall y, f Float.nan y = false) ->
  holds (zip_with f a b) t = f (pd.iloc a t) (pd.iloc b t).
Proof.
  intros Hr Hl. unfold holds, pd.iloc. rewrite lookup_zip_with.
  destruct (a !! t), (b !! t); simpl; auto.
Qed.

Lemma holds_gt a b t :
  holds (pd.gt a b) t = Float.gtb (pd.iloc a t) (pd.iloc b t).
Proof. apply holds_zip_with; intros [x|]; reflexivity. Qed.

Lemma holds_lt a b t :
  holds (pd.lt a b) t = Float.ltb (pd.iloc a t) (pd.iloc b t).
Proof. apply holds_zip_with; intros [x|]; reflexivity. Qed.

Lemma holds_ge a b t :
  holds (pd.ge a b) t = Float.geb (pd.iloc a t) (pd.iloc b t).
Proof. apply holds_zip_with; intros [x|]; reflexivity. Qed.

Lemma holds_le a b t :
  holds (pd.le a b) t = Float.leb (pd.iloc a t) (pd.iloc b t).
Proof. apply holds_zip_with; intros [x|]; reflexivity. Qed.

Lemma holds_fmap (f : float -> bool) a t :
  f Float.nan = false -> holds (f <$> a) t = f (pd.iloc a t).
Proof.
  intros Hf. unfold holds, pd.iloc. rewrite list_lookup_fmap.
  destruct (a !! t); simpl; auto.
Qed.

Lemma holds_and m1 m2 t : holds (m1 & m2)%mask t = holds m1 t && holds m2 t.
Proof.
  unfold holds, pd.and_. rewrite lookup_zip_with.
  destruct (m1 !! t), (m2 !! t); simpl; auto using andb_false_r.
Qed.

Lemma holds_or m1 m2 t :
  length m1 = length m2 ->
  holds (m1 ||| m2)%mask t = holds m1 t || holds m2 t.
Proof.
  intros Hlen. unfold holds, pd.or_. rewrite lookup_zip_with.
  destruct (m1 !! t) eqn:H1, (m2 !! t) eqn:H2; simpl; auto.
  - apply lookup_lt_Some in H1. apply lookup_ge_None in H2. lia.
  - apply lookup_lt_Some in H2. apply lookup_ge_None in H1. lia.
Qed.

Lemma cell_getitem df c s t :
  pd.getitem df c = Some s -> pd.cell df c t = pd.iloc s t.
Proof. unfold pd.getitem, pd.cell, pd.iloc. now intros ->. Qed.

Lemma wf_getitem df c s :
  pd.wf df -> pd.getitem df c = Some s -> length s = pd.index df.
Proof. intros Hwf Hs. exact (Hwf c s Hs). Qed.

Lemma wf_setitem df c s : pd.wf df -> pd.wf (pd.setitem df c s).
Proof.
  intros Hwf. unfold pd.wf, pd.setitem; simpl.
  apply map_Forall_insert_2; [apply length_resize | exact Hwf].
Qed.

Lemma getitem_setitem_eq df c s :
  pd.getitem (pd.setitem df c s) c = Some (resize (pd.index df) Float.nan s).
Proof. apply lookup_insert_eq. Qed.

Lemma getitem_setitem_ne df c c' s :
  c <> c' -> pd.getitem (pd.setitem df c s) c' = pd.getitem df c'.
Proof. intros Hne. now apply lookup_insert_ne. Qed.

(** The column that [df.loc[mask, c] = v] starts from has one cell per
    row. *)
Lemma length_old_column df c :
  pd.wf df ->
  length (default (replicate (pd.index df) Float.nan) (pd.columns df !! c))
  = pd.index df.
Proof.
  intros Hwf. destruct (pd.columns df !! c) as [s|] eqn:Hs; simpl.
  - exact (Hwf c s Hs).
  - apply length_replicate.
Qed.

Lemma wf_loc_setitem df m c v :
  pd.wf df -> length m = pd.index df -> pd.wf (pd.loc_setitem df m c v).
Proof.
  intros Hwf Hm. unfold pd.wf, pd.loc_setitem; simpl.
  apply map_Forall_insert_2; [| exact Hwf].
  rewrite length_zip_with, length_old_column by assumption. lia.
Qed.

Lemma columns_loc_setitem_ne df m c c' v :
  c <> c' -> pd.columns (pd.loc_setitem df m c v) !! c' = pd.columns df !! c'.
Proof. intros Hne. now apply lookup_insert_ne. Qed.

Lemma cell_loc_setitem_ne df m c c' v t :
  c <> c' -> pd.cell (pd.loc_setitem df m c v) c' t = pd.cell df c' t.
Proof. intros Hne. unfold pd.cell. now rewrite columns_loc_setitem_ne. Qed.

(** What [df.loc[mask, c] = v] leaves in column [c]. *)
Lemma cell_loc_setitem_eq df m c v t :
  pd.wf df -> length m = pd.index df ->
  pd.cell (pd.loc_setitem df m c v) c t
  = if holds m t then v else pd.cell df c t.
Proof.
  intros Hwf Hm.
  pose proof (length_old_column df c Hwf) as Hold.
  assert (pd.cell df c t
          = pd.iloc (default (replicate (pd.index df) Float.nan)
                             (pd.columns df !! c)) t) as ->.
  { unfold pd.cell, pd.iloc. destruct (pd.columns df !! c) as [s|]; simpl.
    - reflexivity.
    - destruct (replicate (pd.index df) Float.nan !! t) as [x|] eqn:Hx.
      + now apply lookup_replicate in Hx as [-> _].
      + reflexivity. }
  unfold pd.cell, pd.loc_setitem, holds, pd.iloc in *; simpl.
  rewrite lookup_insert_eq; simpl. rewrite lookup_zip_with.
  set (old := default _ _) in *. clearbody old.
  destruct (m !! t) as [b|] eqn:Hb, (old !! t) as [o|] eqn:Ho; simpl.
  - now destruct b.
  - apply lookup_lt_Some in Hb. apply lookup_ge_None in Ho. lia.
  - apply lookup_lt_Some in Ho. apply lookup_ge_None in Hb. lia.
  - reflexivity.
Qed.

End pandas_facts.

(** ** The two rules, row by row *)

Section rules.

Context `{TA : TALib}.
Implicit Types (self : IStrategy) (df : DataFrame) (m : Mask) (t : nat).

Local Ltac columns_of H :=
  repeat match type of H with
    | context [pd.getitem ?df ?c] =>
        let s := fresh "s" in let Hs := fresh "Hs" in
        destruct (pd.getitem df c) as [s|] eqn:Hs; simpl in H;
        [| discriminate H]
    end.

Lemma entry_mask_length self df m :
  pd.wf df -> entry_mask self df = Some m -> length m = pd.index df.
Proof.
  intros Hwf H. unfold entry_mask in H. columns_of H.
  injection H as <-.
  unfold pd.and_, pd.gt, pd.le, pd.ge_scalar, pd.le_scalar.
  rewrite !length_zip_with, !length_fmap.
  repeat match goal with
    | Hc : pd.getitem df _ = Some _ |- _ =>
        apply (wf_getitem _ _ _ Hwf) in Hc
    end.
  lia.
Qed.

Lemma entry_mask_holds self df m t :
  entry_mask self df = Some m ->
  holds m t = true <-> entry_rule self df t.
Proof.
  intros H. unfold entry_mask in H. columns_of H.
  injection H as <-.
  rewrite !holds_and, holds_le, !holds_gt.
  unfold pd.ge_scalar, pd.le_scalar. rewrite !holds_fmap by reflexivity.
  unfold entry_rule.
  repeat match goal with
    | Hc : pd.getitem df _ = Some _ |- _ =>
        rewrite (cell_getitem _ _ _ t Hc); clear Hc
    end.
  rewrite !andb_true_iff, !gtb_gt, leb_le, geb_ge, leb_le. tauto.
Qed.

Lemma exit_mask_length self df m :
  pd.wf df -> exit_mask self df = Some m -> length m = pd.index df.
Proof.
  intros Hwf H. unfold exit_mask in H. columns_of H.
  injection H as <-.
  unfold pd.or_, pd.and_, pd.lt, pd.ge, pd.lt_scalar.
  rewrite !length_zip_with, !length_fmap.
  repeat match goal with
    | Hc : pd.getitem df _ = Some _ |- _ =>
        apply (wf_getitem _ _ _ Hwf) in Hc
    end.
  lia.
Qed.

Lemma exit_mask_holds self df m t :
  pd.wf df -> exit_mask self df = Some m ->
  holds m t = true <-> exit_rule self df t.
Proof.
  intros Hwf H. unfold exit_mask in H. columns_of H.
  injection H as <-.
  assert (forall c s, pd.getitem df c = Some s -> length s = pd.index df)
    as Hlen by (intros; eapply wf_getitem; eauto).
  rewrite !holds_or, holds_and, !holds_lt, holds_ge.
  2: { unfold pd.and_, pd.lt, pd.ge, pd.lt_scalar.
       rewrite !length_zip_with, !length_fmap.
       repeat match goal with
         | Hc : pd.getitem df _ = Some _ |- _ => apply Hlen in Hc
         end. lia. }
  2: { unfold pd.or_, pd.and_, pd.lt, pd.ge, pd.lt_scalar.
       rewrite !length_zip_with, !length_fmap.
       repeat match goal with
         | Hc : pd.getitem df _ = Some _ |- _ => apply Hlen in Hc
         end. lia. }
  unfold pd.lt_scalar. rewrite holds_fmap by reflexivity.
  unfold exit_rule.
  repeat match goal with
    | Hc : pd.getitem df _ = Some _ |- _ =>
        rewrite (cell_getitem _ _ _ t Hc); clear Hc
    end.
  rewrite !orb_true_iff, andb_true_iff, !ltb_lt, geb_ge. tauto.
Qed.

End rules.

(** ** The indicator columns *)

Section indicators.

Context `{TA : TALib}.
Implicit Types (self : IStrategy) (df : DataFrame) (t : nat) (s : Series).

(** [populate_indicators] fails only for want of the column [close]. *)
Lemma populate_indicators_eq self df md :
  populate_indicators self df md
  = (real ← pd.getitem df "close"; Some (with_indicators self df real)).
Proof.
  unfold populate_indicators, ta.EMA, ta.MACD, ta.RSI, pd.getitem, pd.setitem.
  simpl. destruct (pd.columns df !! "close") as [real|] eqn:Hclose; simpl;
    [| reflexivity].
  repeat (rewrite ?lookup_insert_eq, ?Hclose; simpl;
          rewrite ?lookup_insert_ne by done).
  reflexivity.
Qed.

Lemma populate_indicators_inv self df md df' :
  populate_indicators self df md = Some df' ->
  exists real,
    pd.getitem df "close" = Some real /\ df' = with_indicators self df real.
Proof.
  rewrite populate_indicators_eq.
  destruct (pd.getitem df "close") as [real|]; simpl; [| discriminate].
  intros [= <-]. now exists real.
Qed.

Lemma wf_with_indicators self df real :
  pd.wf df -> pd.wf (with_indicators self df real).
Proof.
  intros Hwf. unfold pd.wf, with_indicators; simpl.
  repeat (apply map_Forall_insert_2; [apply length_resize |]). exact Hwf.
Qed.

(** The columns that are not indicators are as they were. *)
Lemma with_indicators_other self df real c :
  c ∉ indicator_columns ->
  pd.columns (with_indicators self df real) !! c = pd.columns df !! c.
Proof.
  intros Hc. unfold with_indicators; simpl.
  rewrite !lookup_insert_ne; [reflexivity | ..];
    intros <-; apply Hc; unfold indicator_columns;
    rewrite !elem_of_cons; tauto.
Qed.

Lemma iloc_shift s t :
  t < length s ->
  pd.iloc (pd.shift s) t
  = match t with O => Float.nan | S k => pd.iloc s k end.
Proof.
  intros Ht. unfold pd.iloc, pd.shift. rewrite lookup_take_lt by exact Ht.
  now destruct t.
Qed.

Lemma length_shift s : length (pd.shift s) = length s.
Proof. unfold pd.shift. rewrite length_take; simpl. lia. Qed.

(** A stored lag column is the column it lags, one row earlier. *)
Lemma iloc_fit_shift n s t :
  length s = n -> t < n ->
  pd.iloc (resize n Float.nan (pd.shift s)) t
  = match t with O => Float.nan | S k => pd.iloc s k end.
Proof.
  intros Hs Ht. rewrite resize_all_alt by now rewrite length_shift.
  apply iloc_shift. lia.
Qed.

Lemma with_indicators_lags self df real t :
  t < pd.index df ->
  let df' := with_indicators self df real in
  pd.cell df' "ema200_prev" t = pd.lag df' "ema200" t
  /\ pd.cell df' "macd_prev" t = pd.lag df' "macd" t
  /\ pd.cell df' "macdsignal_prev" t = pd.lag df' "macdsignal" t.
Proof.
  intros Ht df'. unfold pd.lag, pd.cell, df', with_indicators; simpl.
  repeat (rewrite ?lookup_insert_eq; rewrite ?lookup_insert_ne by done);
    simpl.
  repeat split.
  all: match goal with
       | |- default _ (resize ?n _ (pd.shift ?s) !! _) = _ =>
           apply (iloc_fit_shift n s t); [apply length_resize | exact Ht]
       end.
Qed.

End indicators.

(** ** The signal columns *)

Section signals.

Context `{TA : TALib}.
Implicit Types (self : IStrategy) (df : DataFrame) (t : nat) (md : Dict).

(** What the entry rule leaves in [enter_long]. *)
Lemma populate_entry_trend_cell self df md df' t :
  pd.wf df -> populate_entry_trend self df md = Some df' ->
  (entry_rule self df t -> is_set (pd.cell df' "enter_long" t))
  /\ (~ entry_rule self df t ->
      pd.cell df' "enter_long" t = pd.cell df "enter_long" t).
Proof.
  intros Hwf H. unfold populate_entry_trend in H.
  destruct (entry_mask self df) as [m|] eqn:Hm; simpl in H; [| discriminate].
  injection H as <-.
  rewrite cell_loc_setitem_eq by eauto using entry_mask_length.
  pose proof (entry_mask_holds self df m t Hm) as Hrule.
  destruct (holds m t).
  - split; [reflexivity | intros Hn; exfalso; apply Hn, Hrule; reflexivity].
  - split; [intros Hr; apply Hrule in Hr; discriminate | reflexivity].
Qed.

(** What the exit rule leaves in [exit_long]. *)
Lemma populate_exit_trend_cell self df md df' t :
  pd.wf df -> populate_exit_trend self df md = Some df' ->
  (exit_rule self df t -> is_set (pd.cell df' "exit_long" t))
  /\ (~ exit_rule self df t ->
      pd.cell df' "exit_long" t = pd.cell df "exit_long" t).
Proof.
  intros Hwf H. unfold populate_exit_trend in H.
  destruct (exit_mask self df) as [m|] eqn:Hm; simpl in H; [| discriminate].
  injection H as <-.
  rewrite cell_loc_setitem_eq by eauto using exit_mask_length.
  pose proof (exit_mask_holds self df m t Hwf Hm) as Hrule.
  destruct (holds m t).
  - split; [reflexivity | intros Hn; exfalso; apply Hn, Hrule; reflexivity].
  - split; [intros Hr; apply Hrule in Hr; discriminate | reflexivity].
Qed.

(** Both rules are decided at every row. *)
Lemma entry_rule_dec self df t : entry_rule self df t \/ ~ entry_rule self df t.
Proof.
  unfold entry_rule.
  rewrite <- !gtb_gt, <- !leb_le, <- geb_ge, <- !andb_true_iff.
  destruct (_ && _); [now left | now right].
Qed.

Lemma exit_rule_dec self df t : exit_rule self df t \/ ~ exit_rule self df t.
Proof.
  unfold exit_rule.
  rewrite <- !ltb_lt, <- geb_ge, <- andb_true_iff, <- !orb_true_iff.
  destruct (_ || _); [now left | now right].
Qed.

(** The rules fail only for want of a column: no value of a cell makes
    them fail. *)
Lemma entry_mask_is_Some self df :
  has_columns df entry_columns -> is_Some (entry_mask self df).
Proof.
  intros H. unfold has_columns, entry_columns in H.
  rewrite !Forall_cons in H. unfold entry_mask.
  destruct H as ([? ->] & [? ->] & [? ->] & [? ->] & [? ->] & [? ->]
                 & [? ->] & [? ->] & _).
  simpl. eauto.
Qed.

Lemma exit_mask_is_Some self df :
  has_columns df exit_columns -> is_Some (exit_mask self df).
Proof.
  intros H. unfold has_columns, exit_columns in H.
  rewrite !Forall_cons in H. unfold exit_mask.
  destruct H as ([? ->] & [? ->] & [? ->] & [? ->] & [? ->] & [? ->]
                 & [? ->] & _).
  simpl. eauto.
Qed.

Lemma populate_entry_trend_is_Some self df md :
  has_columns df entry_columns -> is_Some (populate_entry_trend self df md).
Proof.
  intros H. unfold populate_entry_trend.
  destruct (entry_mask_is_Some self df H) as [m ->]. simpl. eauto.
Qed.

Lemma populate_exit_trend_is_Some self df md :
  has_columns df exit_columns -> is_Some (populate_exit_trend self df md).
Proof.
  intros H. unfold populate_exit_trend.
  destruct (exit_mask_is_Some self df H) as [m ->]. simpl. eauto.
Qed.

(** After [populate_indicators] the frame has what both rules read. *)
Lemma with_indicators_columns self df real :
  pd.getitem df "close" = Some real ->
  has_columns (with_indicators self df real) entry_columns
  /\ has_columns (with_indicators self df real) exit_columns.
Proof.
  intros Hclose. unfold has_columns, entry_columns, exit_columns.
  rewrite !Forall_cons.
  unfold pd.getitem, with_indicators; simpl.
  repeat (rewrite ?lookup_insert_eq; rewrite ?lookup_insert_ne by done).
  unfold pd.getitem in Hclose. rewrite Hclose.
  repeat split; eauto using Forall_nil_2.
Qed.

End signals.

(** ** The entry and the exit rule on a series of candles *)

(** A column name that is none of the indicator columns. *)
Ltac not_indicator :=
  unfold indicator_columns; rewrite !not_elem_of_cons;
  repeat split; solve [discriminate | apply not_elem_of_nil].

Section claims.

Context `{TA : TALib}.
Implicit Types (self : IStrategy) (df : DataFrame) (t : nat) (md : Dict).

Lemma wf_closes (real : Series) : pd.wf (closes real).
Proof. unfold pd.wf, closes; simpl. now apply map_Forall_singleton. Qed.

(** On the frame of the indicators, the rule of the code is the
    conjunction of the four entry conditions. *)
Lemma entry_rule_conditions self candles real t :
  pd.getitem candles "close" = Some real -> t < pd.index candles ->
  let df := with_indicators self candles real in
  entry_rule self df t
  <-> price_above_ema candles df t /\ ema_rising df t
      /\ macd_bullish_cross df t /\ rsi_in_band self df t.
Proof.
  intros Hclose Ht df.
  destruct (with_indicators_lags self candles real t Ht)
    as (He & Hm & Hs). fold df in He, Hm, Hs.
  unfold entry_rule, price_above_ema, ema_rising, macd_bullish_cross,
    rsi_in_band.
  rewrite He, Hm, Hs.
  assert (pd.cell df "close" t = pd.cell candles "close" t) as ->.
  { unfold pd.cell, df. now rewrite with_indicators_other by not_indicator. }
  unfold Float.ge. tauto.
Qed.

(** On the frame of the indicators, the rule of the code is the
    disjunction of the three exit conditions. *)
Lemma exit_rule_conditions self candles real t :
  pd.getitem candles "close" = Some real -> t < pd.index candles ->
  let df := with_indicators self candles real in
  exit_rule self df t
  <-> macd_bearish_cross df t \/ rsi_breakdown self df t
      \/ regime_violation candles df t.
Proof.
  intros Hclose Ht df.
  destruct (with_indicators_lags self candles real t Ht)
    as (He & Hm & Hs). fold df in He, Hm, Hs.
  unfold exit_rule, macd_bearish_cross, rsi_breakdown, regime_violation.
  rewrite Hm, Hs.
  assert (pd.cell df "close" t = pd.cell candles "close" t) as ->.
  { unfold pd.cell, df. now rewrite with_indicators_other by not_indicator. }
  tauto.
Qed.

Lemma with_indicators_no_signal self candles real c t :
  c = "enter_long" \/ c = "exit_long" ->
  pd.getitem candles c = None ->
  pd.cell (with_indicators self candles real) c t = Float.nan.
Proof.
  intros Hc Hnone. unfold pd.cell.
  rewrite with_indicators_other by (destruct Hc as [-> | ->]; not_indicator).
  unfold pd.getitem in Hnone. now rewrite Hnone.
Qed.

(** The cell of [enter_long] after the entry rule has run on a series of
    candles with its indicators. *)
Lemma enter_long_cells self candles df md t :
  pd.wf candles ->
  pd.getitem candles "enter_long" = None ->
  populate_indicators self candles md = Some df ->
  t < pd.index candles ->
  exists df',
    populate_entry_trend self df md = Some df'
    /\ (is_set (pd.cell df' "enter_long" t)
        <-> price_above_ema candles df t /\ ema_rising df t
            /\ macd_bullish_cross df t /\ rsi_in_band self df t)
    /\ (~ is_set (pd.cell df' "enter_long" t)
        -> Float.isnan (pd.cell df' "enter_long" t)).
Proof.
  intros Hwf Hfresh Hind Ht.
  apply populate_indicators_inv in Hind as (real & Hclose & ->).
  set (df := with_indicators self candles real).
  destruct (with_indicators_columns self candles real Hclose) as [Hcols _].
  destruct (populate_entry_trend_is_Some self df md Hcols) as [df' Hdf'].
  exists df'. split; [exact Hdf' |].
  assert (Hwf' : pd.wf df) by now apply wf_with_indicators.
  destruct (populate_entry_trend_cell self df md df' t Hwf' Hdf')
    as [Hyes Hno].
  pose proof (entry_rule_conditions self candles real t Hclose Ht) as Hrule.
  fold df in Hrule.
  assert (Hold : pd.cell df "enter_long" t = Float.nan)
    by (apply with_indicators_no_signal; auto).
  assert (Hiff : is_set (pd.cell df' "enter_long" t) <-> entry_rule self df t).
  { split; [| exact Hyes].
    intros Hset. destruct (entry_rule_dec self df t) as [|Hn]; [assumption |].
    rewrite (Hno Hn), Hold in Hset. discriminate Hset. }
  split; [now rewrite Hiff |].
  intros Hn. rewrite Hiff in Hn. now rewrite (Hno Hn).
Qed.

(** The cell of [exit_long] after the exit rule has run on a series of
    candles with its indicators. *)
Lemma exit_long_cells self candles df md t :
  pd.wf candles ->
  pd.getitem candles "exit_long" = None ->
  populate_indicators self candles md = Some df ->
  t < pd.index candles ->
  exists df',
    populate_exit_trend self df md = Some df'
    /\ (is_set (pd.cell df' "exit_long" t)
        <-> macd_bearish_cross df t \/ rsi_breakdown self df t
            \/ regime_violation candles df t)
    /\ (~ is_set (pd.cell df' "exit_long" t)
        -> Float.isnan (pd.cell df' "exit_long" t)).
Proof.
  intros Hwf Hfresh Hind Ht.
  apply populate_indicators_inv in Hind as (real & Hclose & ->).
  set (df := with_indicators self candles real).
  destruct (with_indicators_columns self candles real Hclose) as [_ Hcols].
  destruct (populate_exit_trend_is_Some self df md Hcols) as [df' Hdf'].
  exists df'. split; [exact Hdf' |].
  assert (Hwf' : pd.wf df) by now apply wf_with_indicators.
  destruct (populate_exit_trend_cell self df md df' t Hwf' Hdf')
    as [Hyes Hno].
  pose proof (exit_rule_conditions self candles real t Hclose Ht) as Hrule.
  fold df in Hrule.
  assert (Hold : pd.cell df "exit_long" t = Float.nan)
    by (apply with_indicators_no_signal; auto).
  assert (Hiff : is_set (pd.cell df' "exit_long" t) <-> exit_rule self df t).
  { split; [| exact Hyes].
    intros Hset. destruct (exit_rule_dec self df t) as [|Hn]; [assumption |].
    rewrite (Hno Hn), Hold in Hset. discriminate Hset. }
  split; [now rewrite Hiff |].
  intros Hn. rewrite Hiff in Hn. now rewrite (Hno Hn).
Qed.

End claims.

(** Decide a closed comparison of cells. *)
Ltac decide_cells :=
  vm_compute; repeat split; solve [reflexivity | discriminate].

(** C1: for every series of candles with its indicators and every position
    [t], [enter_long[t]] is set if and only if the four entry conditions hold
    at [t]: [close[t] > ema200[t]], [ema200[t] > ema200[t-1]], the MACD line
    above its signal line at [t] and at or below it at [t-1], and
    [rsi_entry_low <= rsi[t] <= rsi_entry_high], both bounds included.  A
    cell that is not set is left undefined.  With the bounds 45 and 55 and
    the other three conditions true, [rsi[t] = 45.0] sets the signal and
    [rsi[t] = 44.999] does not. *)
Theorem enter_long_iff `{TA : TALib} (self : IStrategy)
    (candles df : DataFrame) (metadata : Dict) (t : nat) :
  pd.wf candles ->
  pd.getitem candles "enter_long" = None ->
  populate_indicators self candles metadata = Some df ->
  t < pd.index candles ->
  exists df',
    populate_entry_trend self df metadata = Some df'
    /\ (is_set (pd.cell df' "enter_long" t)
        <-> price_above_ema candles df t /\ ema_rising df t
            /\ macd_bullish_cross df t /\ rsi_in_band self df t)
    /\ (~ is_set (pd.cell df' "enter_long" t)
        -> Float.isnan (pd.cell df' "enter_long" t))
    /\ (value (rsi_entry_low self) = 45%Z ->
        value (rsi_entry_high self) = 55%Z ->
        price_above_ema candles df t -> ema_rising df t ->
        macd_bullish_cross df t ->
        (pd.cell df "rsi" t = Float.of_Q 45 ->
         is_set (pd.cell df' "enter_long" t))
        /\ (pd.cell df "rsi" t = Float.of_Q 44.999 ->
            ~ is_set (pd.cell df' "enter_long" t))).
Proof.
  intros Hwf Hfresh Hind Ht.
  destruct (enter_long_cells self candles df metadata t Hwf Hfresh Hind Ht)
    as (df' & Hrun & Hiff & Hnan).
  exists df'. do 3 (split; [assumption |]).
  intros Hlo Hhi H1 H2 H3. rewrite Hiff.
  unfold rsi_in_band. rewrite Hlo, Hhi. split; intros ->.
  - do 3 (split; [assumption |]). split; simpl; unfold Qle; simpl; lia.
  - intros (_ & _ & _ & Hband & _). simpl in Hband.
    unfold Qle in Hband; simpl in Hband. lia.
Qed.

Lemma enter_long_iff_witness :
  exists df',
    populate_entry_trend SteddockMacdEma200Rsi
      (spec_indicators dip_and_recover) ∅ = Some df'
    /\ is_set (pd.cell df' "enter_long" 200).
Proof.
  destruct (enter_long_iff (TA := ta_spec.spec) SteddockMacdEma200Rsi
              (closes dip_and_recover) (spec_indicators dip_and_recover)
              ∅ 200) as (df' & Hrun & Hiff & _).
  - apply wf_closes.
  - reflexivity.
  - vm_compute. reflexivity.
  - vm_compute. lia.
  - exists df'. split; [exact Hrun |]. apply Hiff.
    unfold price_above_ema, ema_rising, macd_bullish_cross, rsi_in_band.
    decide_cells.
Defined.

(** C2: for every series of candles with its indicators and every position
    [t], [exit_long[t]] is set if and only if at least one of the three exit
    conditions holds at [t]: the MACD line below its signal line at [t] and at
    or above it at [t-1], [rsi[t] < rsi_exit], or [close[t] < ema200[t]].  A
    cell that is not set is left undefined. *)
Theorem exit_long_iff `{TA : TALib} (self : IStrategy)
    (candles df : DataFrame) (metadata : Dict) (t : nat) :
  pd.wf candles ->
  pd.getitem candles "exit_long" = None ->
  populate_indicators self candles metadata = Some df ->
  t < pd.index candles ->
  exists df',
    populate_exit_trend self df metadata = Some df'
    /\ (is_set (pd.cell df' "exit_long" t)
        <-> macd_bearish_cross df t \/ rsi_breakdown self df t
            \/ regime_violation candles df t)
    /\ (~ is_set (pd.cell df' "exit_long" t)
        -> Float.isnan (pd.cell df' "exit_long" t)).
Proof.
  intros Hwf Hfresh Hind Ht.
  exact (exit_long_cells self candles df metadata t Hwf Hfresh Hind Ht).
Qed.

Lemma exit_long_iff_witness :
  exists df',
    populate_exit_trend SteddockMacdEma200Rsi (spec_indicators falling) ∅
    = Some df'
    /\ is_set (pd.cell df' "exit_long" 14).
Proof.
  destruct (exit_long_iff (TA := ta_spec.spec) SteddockMacdEma200Rsi
              (closes falling) (spec_indicators falling) ∅ 14)
    as (df' & Hrun & Hiff & _).
  - apply wf_closes.
  - reflexivity.
  - vm_compute. reflexivity.
  - vm_compute. lia.
  - exists df'. split; [exact Hrun |]. apply Hiff.
    right; left. unfold rsi_breakdown. decide_cells.
Defined.

(** ** The three methods in sequence *)

Section pipeline.

Context `{TA : TALib}.
Implicit Types (self : IStrategy) (df : DataFrame) (t : nat) (md : Dict).

(** Writing the entry signal does not change what the exit rule reads. *)
Lemma exit_rule_after_entry self df m v t :
  exit_rule self (pd.loc_setitem df m "enter_long" v) t <-> exit_rule self df t.
Proof. unfold exit_rule. now rewrite !cell_loc_setitem_ne by done. Qed.

Lemma has_columns_loc_setitem df m c v cs :
  has_columns df cs -> has_columns (pd.loc_setitem df m c v) cs.
Proof.
  unfold has_columns. intros H. eapply Forall_impl; [exact H |].
  intros c' [s Hs]. unfold pd.getitem, pd.loc_setitem in *; simpl.
  destruct (decide (c = c')) as [-> | Hne].
  - rewrite lookup_insert_eq. eauto.
  - rewrite lookup_insert_ne by exact Hne. eauto.
Qed.

(** The run of the three methods on a well-formed frame: it fails only for
    want of the column [close]; a signal cell is set where its rule holds on
    the frame of the indicators and is left as it was elsewhere; the other
    columns are those of the frame of the indicators. *)
Lemma analyze_ticker_inv self candles md df :
  pd.wf candles ->
  analyze_ticker self candles md = Some df ->
  exists dfi,
    populate_indicators self candles md = Some dfi
    /\ pd.wf df
    /\ pd.index df = pd.index candles
    /\ (forall c, c <> "enter_long" -> c <> "exit_long" ->
        pd.columns df !! c = pd.columns dfi !! c)
    /\ (forall t,
         (entry_rule self dfi t -> is_set (pd.cell df "enter_long" t))
         /\ (~ entry_rule self dfi t ->
             pd.cell df "enter_long" t = pd.cell dfi "enter_long" t)
         /\ (exit_rule self dfi t -> is_set (pd.cell df "exit_long" t))
         /\ (~ exit_rule self dfi t ->
             pd.cell df "exit_long" t = pd.cell dfi "exit_long" t)).
Proof.
  intros Hwf H. unfold analyze_ticker in H.
  destruct (populate_indicators self candles md) as [dfi|] eqn:Hind;
    simpl in H; [| discriminate].
  destruct (populate_entry_trend self dfi md) as [df1|] eqn:Hentry;
    simpl in H; [| discriminate].
  exists dfi. split; [reflexivity |].
  assert (Hwfi : pd.wf dfi).
  { apply populate_indicators_inv in Hind as (real & _ & ->).
    now apply wf_with_indicators. }
  pose proof (fun t => populate_entry_trend_cell self dfi md df1 t Hwfi Hentry)
    as Hcell1.
  unfold populate_entry_trend in Hentry.
  destruct (entry_mask self dfi) as [m1|] eqn:Hm1; simpl in Hentry;
    [| discriminate].
  injection Hentry as <-.
  assert (Hwf1 : pd.wf (pd.loc_setitem dfi m1 "enter_long" (Float.of_int 1)))
    by eauto using wf_loc_setitem, entry_mask_length.
  pose proof (fun t => populate_exit_trend_cell self _ md df t Hwf1 H)
    as Hcell2.
  unfold populate_exit_trend in H.
  destruct (exit_mask self _) as [m2|] eqn:Hm2; simpl in H; [| discriminate].
  injection H as <-.
  split; [eauto using wf_loc_setitem, exit_mask_length |].
  split.
  { simpl. apply populate_indicators_inv in Hind as (real & _ & ->).
    reflexivity. }
  split.
  { intros c Hc1 Hc2. now rewrite !columns_loc_setitem_ne by congruence. }
  intros t. destruct (Hcell1 t) as [Hy1 Hn1], (Hcell2 t) as [Hy2 Hn2].
  rewrite (cell_loc_setitem_ne _ _ "exit_long" "enter_long") by discriminate.
  rewrite exit_rule_after_entry in Hy2, Hn2.
  rewrite (cell_loc_setitem_ne _ _ "enter_long" "exit_long") in Hn2
    by discriminate.
  auto.
Qed.

(** The run succeeds on every frame that has the column [close]. *)
Lemma analyze_ticker_is_Some self candles md :
  is_Some (pd.getitem candles "close") ->
  is_Some (analyze_ticker self candles md).
Proof.
  intros [real Hclose]. unfold analyze_ticker.
  rewrite populate_indicators_eq, Hclose; simpl.
  destruct (with_indicators_columns self candles real Hclose) as [He Hx].
  unfold populate_entry_trend.
  destruct (entry_mask_is_Some self _ He) as [m1 ->]; simpl.
  apply populate_exit_trend_is_Some. now apply has_columns_loc_setitem.
Qed.

(** On candles without signal columns the signal cells are set exactly where
    the rules hold, and are NaN elsewhere. *)
Lemma analyze_ticker_signals self candles md df dfi t :
  pd.wf candles -> no_signals candles ->
  populate_indicators self candles md = Some dfi ->
  analyze_ticker self candles md = Some df ->
  (is_set (pd.cell df "enter_long" t) <-> entry_rule self dfi t)
  /\ (~ entry_rule self dfi t -> pd.cell df "enter_long" t = Float.nan)
  /\ (is_set (pd.cell df "exit_long" t) <-> exit_rule self dfi t)
  /\ (~ exit_rule self dfi t -> pd.cell df "exit_long" t = Float.nan).
Proof.
  intros Hwf [Hfresh1 Hfresh2] Hind Hrun.
  destruct (analyze_ticker_inv self candles md df Hwf Hrun)
    as (dfi' & Hind' & _ & _ & _ & Hcells).
  rewrite Hind in Hind'. injection Hind' as <-.
  destruct (Hcells t) as (Hy1 & Hn1 & Hy2 & Hn2).
  apply populate_indicators_inv in Hind as (real & Hclose & ->).
  rewrite with_indicators_no_signal in Hn1 by auto.
  rewrite with_indicators_no_signal in Hn2 by auto.
  split; [split; [| exact Hy1] | split; [exact Hn1 | split; [split |]]];
    [| | exact Hy2 | exact Hn2].
  - intros Hset.
    destruct (entry_rule_dec self (with_indicators self candles real) t)
      as [|Hn]; [assumption |].
    rewrite (Hn1 Hn) in Hset. discriminate Hset.
  - intros Hset.
    destruct (exit_rule_dec self (with_indicators self candles real) t)
      as [|Hn]; [assumption |].
    rewrite (Hn2 Hn) in Hset. discriminate Hset.
Qed.

(** The entry rule and the exit rule exclude each other when the exit
    threshold of the RSI is not above the lower bound of the entry band. *)
Lemma entry_rule_excludes_exit_rule self df t :
  (rsi_exit self <= value (rsi_entry_low self))%Z ->
  entry_rule self df t -> ~ exit_rule self df t.
Proof.
  intros Hle (Hclose & _ & Hmacd & _ & Hrsi & _) [[Hm _] | [Hr | Hc]].
  - exact (lt_asym _ _ Hm Hmacd).
  - apply (lt_not_ge _ _ (lt_le_trans _ _ _ Hr (of_int_le _ _ Hle))), Hrsi.
  - exact (lt_asym _ _ Hc Hclose).
Qed.

End pipeline.

(** ** Entry and exit at the same row *)

(** On candles without signal columns no row gets both signals when the exit
    threshold of the RSI is not above the lower bound of the entry band. *)
Lemma signals_exclude `{TA : TALib} (self : IStrategy)
    (candles df : DataFrame) (metadata : Dict) (t : nat) :
  (rsi_exit self <= value (rsi_entry_low self))%Z ->
  pd.wf candles -> no_signals candles ->
  analyze_ticker self candles metadata = Some df ->
  is_set (pd.cell df "enter_long" t) -> is_set (pd.cell df "exit_long" t) ->
  False.
Proof.
  intros Hle Hwf Hfresh Hrun Hin Hout.
  destruct (analyze_ticker_inv self candles metadata df Hwf Hrun)
    as (dfi & Hind & _).
  destruct (analyze_ticker_signals self candles metadata df dfi t
              Hwf Hfresh Hind Hrun) as (Hentry & _ & Hexit & _).
  apply Hentry in Hin. apply Hexit in Hout.
  exact (entry_rule_excludes_exit_rule self dfi t Hle Hin Hout).
Qed.

(** C4, as stated, fails: with the default parameters there is no series of
    candles and no position at which [enter_long] and [exit_long] are both
    set. *)
Lemma both_signals_counterexample :
  ~ exists (TA : TALib) (candles df : DataFrame) (metadata : Dict) (t : nat),
      pd.wf candles /\ no_signals candles
      /\ analyze_ticker SteddockMacdEma200Rsi candles metadata = Some df
      /\ is_set (pd.cell df "enter_long" t)
      /\ is_set (pd.cell df "exit_long" t).
Proof.
  intros (TA & candles & df & metadata & t & Hwf & Hfresh & Hrun & Hin & Hout).
  apply (signals_exclude SteddockMacdEma200Rsi candles df metadata t);
    auto.
  simpl. lia.
Qed.

(** C4, amended: the two signals exclude each other.  For every
    configuration whose [rsi_exit] is not above [rsi_entry_low] (the default
    has 30 and 45), every series of candles and every position [t],
    [enter_long[t]] and [exit_long[t]] are not both set: the entry rule needs
    [close > ema200], [macd > macdsignal] and [rsi >= rsi_entry_low], and each
    exit condition contradicts one of the three. *)
Theorem signals_mutually_exclusive `{TA : TALib} (self : IStrategy)
    (candles df : DataFrame) (metadata : Dict) (t : nat) :
  (rsi_exit self <= value (rsi_entry_low self))%Z ->
  pd.wf candles -> no_signals candles ->
  analyze_ticker self candles metadata = Some df ->
  ~ (is_set (pd.cell df "enter_long" t) /\ is_set (pd.cell df "exit_long" t)).
Proof.
  intros Hle Hwf Hfresh Hrun [Hin Hout].
  exact (signals_exclude self candles df metadata t Hle Hwf Hfresh Hrun
           Hin Hout).
Qed.

Lemma signals_mutually_exclusive_witness :
  ~ (is_set (pd.cell (spec_run dip_and_recover) "enter_long" 200)
     /\ is_set (pd.cell (spec_run dip_and_recover) "exit_long" 200)).
Proof.
  apply (signals_mutually_exclusive (TA := ta_spec.spec)
           SteddockMacdEma200Rsi (closes dip_and_recover)
           (spec_run dip_and_recover) ∅ 200).
  - simpl. lia.
  - apply wf_closes.
  - split; reflexivity.
  - vm_compute. reflexivity.
Defined.

(** ** Running the methods again *)

Section rerun.

Context `{TA : TALib}.
Implicit Types (self : IStrategy) (df : DataFrame) (t : nat) (md : Dict).

(** A frame that already holds the indicators of [real] is not changed by
    storing them again. *)
Lemma with_indicators_absorb self df0 df real :
  pd.index df = pd.index df0 ->
  (forall c, c ∈ indicator_columns ->
     pd.columns df !! c = pd.columns (with_indicators self df0 real) !! c) ->
  with_indicators self df real = df.
Proof.
  intros Hidx Hcols. destruct df as [n M]; simpl in *. subst n.
  unfold with_indicators; simpl. f_equal.
  assert (Hin : forall c v,
            c ∈ indicator_columns ->
            pd.columns (with_indicators self df0 real) !! c = Some v ->
            <[c := v]> M = M).
  { intros c v Hc Hv. apply insert_id. now rewrite Hcols. }
  unfold indicator_columns in Hin.
  rewrite !Hin; try reflexivity; try (rewrite !elem_of_cons; tauto);
    unfold with_indicators; simpl;
    repeat (rewrite ?lookup_insert_eq; rewrite ?lookup_insert_ne by done);
    reflexivity.
Qed.

Lemma with_indicators_idem self df real :
  with_indicators self (with_indicators self df real) real
  = with_indicators self df real.
Proof. now apply (with_indicators_absorb self df). Qed.

(** The masks depend on the columns that the rules read, and on nothing
    else of the frame. *)
Lemma entry_mask_ext self df df' :
  (forall c, c ∈ entry_columns -> pd.getitem df c = pd.getitem df' c) ->
  entry_mask self df = entry_mask self df'.
Proof.
  intros H. unfold entry_mask, entry_columns in *.
  rewrite !H by (rewrite !elem_of_cons; tauto). reflexivity.
Qed.

Lemma exit_mask_ext self df df' :
  (forall c, c ∈ exit_columns -> pd.getitem df c = pd.getitem df' c) ->
  exit_mask self df = exit_mask self df'.
Proof.
  intros H. unfold exit_mask, exit_columns in *.
  rewrite !H by (rewrite !elem_of_cons; tauto). reflexivity.
Qed.

Lemma zip_with_set_idem (v : float) (m : Mask) (old : Series) :
  let f := fun (b : bool) (o : float) => if b then v else o in
  zip_with f m (zip_with f m old) = zip_with f m old.
Proof.
  intros f. revert old. induction m as [|b m IH]; intros [|o old]; simpl;
    try reflexivity.
  rewrite IH. now destruct b.
Qed.

(** Marking the same rows again changes nothing. *)
Lemma loc_setitem_absorb df m c v old :
  pd.columns df !! c
  = Some (zip_with (fun (b : bool) o => if b then v else o) m old) ->
  pd.loc_setitem df m c v = df.
Proof.
  intros H. destruct df as [n M]; simpl in *.
  unfold pd.loc_setitem; simpl. rewrite H; simpl.
  rewrite zip_with_set_idem. f_equal. now apply insert_id.
Qed.

End rerun.

(** C8: [populate_indicators] is idempotent.  Run a second time on its own
    output, it yields the same frame: the eight indicator columns have the
    same value at every position as after the first run. *)
Theorem populate_indicators_idempotent `{TA : TALib} (self : IStrategy)
    (dataframe df : DataFrame) (metadata metadata' : Dict) :
  populate_indicators self dataframe metadata = Some df ->
  exists df',
    populate_indicators self df metadata' = Some df'
    /\ (forall c t, c ∈ indicator_columns -> pd.cell df' c t = pd.cell df c t)
    /\ df' = df.
Proof.
  intros H. apply populate_indicators_inv in H as (real & Hclose & ->).
  exists (with_indicators self dataframe real).
  split; [| split; reflexivity].
  rewrite populate_indicators_eq. unfold pd.getitem.
  rewrite with_indicators_other by not_indicator.
  unfold pd.getitem in Hclose. rewrite Hclose; simpl.
  now rewrite with_indicators_idem.
Qed.

Lemma populate_indicators_idempotent_witness :
  exists df',
    populate_indicators (TA := ta_spec.spec) SteddockMacdEma200Rsi
      (spec_indicators falling) ∅ = Some df'
    /\ (forall c t, c ∈ indicator_columns ->
        pd.cell df' c t = pd.cell (spec_indicators falling) c t)
    /\ df' = spec_indicators falling.
Proof.
  apply (populate_indicators_idempotent (TA := ta_spec.spec)
           SteddockMacdEma200Rsi (closes falling) (spec_indicators falling)
           ∅ ∅).
  vm_compute. reflexivity.
Defined.

(** ** What the rules leave alone *)

(** C10: the frame property.  [populate_entry_trend] writes the column
    [enter_long] only and [populate_exit_trend] the column [exit_long] only:
    for every frame, all other columns (the candles and the indicators) and
    the number and the order of the rows are unchanged, and a row at which
    the rule does not hold keeps the signal cell that it had (unset, if it
    was unset). *)
Theorem signal_columns_frame (self : IStrategy)
    (dataframe dataframe' df1 df2 : DataFrame) (metadata : Dict) :
  pd.wf dataframe ->
  populate_entry_trend self dataframe metadata = Some df1 ->
  pd.wf dataframe' ->
  populate_exit_trend self dataframe' metadata = Some df2 ->
  writes_only "enter_long" (entry_rule self dataframe) dataframe df1
  /\ writes_only "exit_long" (exit_rule self dataframe') dataframe' df2.
Proof.
  intros Hwf1 Hentry Hwf2 Hexit. split.
  - pose proof (fun t =>
      populate_entry_trend_cell self dataframe metadata df1 t Hwf1 Hentry)
      as Hcell.
    unfold populate_entry_trend in Hentry.
    destruct (entry_mask self dataframe) as [m|]; simpl in Hentry;
      [| discriminate].
    injection Hentry as <-.
    split; [reflexivity |]. split.
    { intros c Hc. now apply columns_loc_setitem_ne. }
    split; intros t; apply Hcell.
  - pose proof (fun t =>
      populate_exit_trend_cell self dataframe' metadata df2 t Hwf2 Hexit)
      as Hcell.
    unfold populate_exit_trend in Hexit.
    destruct (exit_mask self dataframe') as [m|]; simpl in Hexit;
      [| discriminate].
    injection Hexit as <-.
    split; [reflexivity |]. split.
    { intros c Hc. now apply columns_loc_setitem_ne. }
    split; intros t; apply Hcell.
Qed.

Lemma signal_columns_frame_witness :
  writes_only "enter_long"
    (entry_rule SteddockMacdEma200Rsi (spec_indicators dip_and_recover))
    (spec_indicators dip_and_recover)
    (default (spec_indicators dip_and_recover)
       (populate_entry_trend SteddockMacdEma200Rsi
          (spec_indicators dip_and_recover) ∅))
  /\ writes_only "exit_long"
       (exit_rule SteddockMacdEma200Rsi (spec_indicators falling))
       (spec_indicators falling)
       (default (spec_indicators falling)
          (populate_exit_trend SteddockMacdEma200Rsi
             (spec_indicators falling) ∅)).
Proof.
  apply (signal_columns_frame SteddockMacdEma200Rsi
           (spec_indicators dip_and_recover) (spec_indicators falling) _ _ ∅).
  - apply wf_with_indicators, wf_closes.
  - vm_compute. reflexivity.
  - apply wf_with_indicators, wf_closes.
  - vm_compute. reflexivity.
Defined.

(** ** Undefined cells *)

(** C5, as stated, fails for the exit rule: while the indicators warm up,
    the EMA200 that the exit rule reads at row 14 is undefined (and so are the
    MACD line and its signal line), and yet [exit_long[14]] is set, by the
    RSI alone. *)
Lemma undefined_indicator_counterexample :
  pd.wf warming_up
  /\ Float.isnan (pd.cell warming_up "ema200" 14)
  /\ Float.isnan (pd.cell warming_up "macd" 14)
  /\ exists df',
       populate_exit_trend SteddockMacdEma200Rsi warming_up ∅ = Some df'
       /\ is_set (pd.cell df' "exit_long" 14).
Proof.
  split.
  { apply (bool_decide_unpack _). vm_compute. reflexivity. }
  split; [vm_compute; reflexivity |]. split; [vm_compute; reflexivity |].
  eexists. split; vm_compute; reflexivity.
Qed.

(** That frame is the one that the indicators of the specification give for
    the fifteen falling candles. *)
Lemma warming_up_spec : spec_indicators falling = warming_up.
Proof. vm_compute. reflexivity. Qed.

Section undefined_facts.

Implicit Types (x y : float).

Lemma isnan_not_lt_l x y : Float.isnan x -> ~ (x < y)%float.
Proof. intros ->. apply lt_nan_l. Qed.
Lemma isnan_not_lt_r x y : Float.isnan y -> ~ (x < y)%float.
Proof. intros ->. apply lt_nan_r. Qed.
Lemma isnan_not_le_l x y : Float.isnan x -> ~ (x <= y)%float.
Proof. intros ->. apply le_nan_l. Qed.
Lemma isnan_not_le_r x y : Float.isnan y -> ~ (x <= y)%float.
Proof. intros ->. apply le_nan_r. Qed.

End undefined_facts.

(** C5, amended: undefined values never raise an error and never set a
    signal by themselves.  For every series of candles with its indicators
    and every position [t], both rules return a frame; if any value that the
    entry rule reads at [t] is undefined (the lagged values included, so
    always at [t = 0]), [enter_long[t]] is left unset; each exit condition
    that reads an undefined value is false, and [exit_long[t]] is left unset
    when each of the three exit conditions reads an undefined value. *)
Theorem undefined_values_no_signal `{TA : TALib} (self : IStrategy)
    (candles df : DataFrame) (metadata : Dict) (t : nat) :
  pd.wf candles -> no_signals candles ->
  populate_indicators self candles metadata = Some df ->
  t < pd.index candles ->
  exists df1 df2,
    populate_entry_trend self df metadata = Some df1
    /\ populate_exit_trend self df metadata = Some df2
    /\ (entry_undefined candles df t ->
        Float.isnan (pd.cell df1 "enter_long" t))
    /\ (t = 0 -> Float.isnan (pd.cell df1 "enter_long" t))
    /\ (macd_cross_undefined df t -> ~ macd_bearish_cross df t)
    /\ (rsi_undefined df t -> ~ rsi_breakdown self df t)
    /\ (regime_undefined candles df t -> ~ regime_violation candles df t)
    /\ (macd_cross_undefined df t -> rsi_undefined df t ->
        regime_undefined candles df t ->
        Float.isnan (pd.cell df2 "exit_long" t)).
Proof.
  intros Hwf [Hf1 Hf2] Hind Ht.
  destruct (enter_long_cells self candles df metadata t Hwf Hf1 Hind Ht)
    as (df1 & Hrun1 & Hiff1 & Hnan1).
  destruct (exit_long_cells self candles df metadata t Hwf Hf2 Hind Ht)
    as (df2 & Hrun2 & Hiff2 & Hnan2).
  exists df1, df2. split; [exact Hrun1 |]. split; [exact Hrun2 |].
  assert (Hentry : entry_undefined candles df t ->
                   Float.isnan (pd.cell df1 "enter_long" t)).
  { intros Hu. apply Hnan1. rewrite Hiff1.
    unfold price_above_ema, ema_rising, macd_bullish_cross, rsi_in_band,
      Float.gt.
    intros (H1 & H2 & (H3 & H4) & H5 & H6).
    destruct Hu as [Hu | [Hu | [Hu | [Hu | [Hu | [Hu | [Hu | Hu]]]]]]].
    - exact (isnan_not_lt_r _ _ Hu H1).
    - exact (isnan_not_lt_l _ _ Hu H1).
    - exact (isnan_not_lt_l _ _ Hu H2).
    - exact (isnan_not_lt_r _ _ Hu H3).
    - exact (isnan_not_lt_l _ _ Hu H3).
    - exact (isnan_not_le_l _ _ Hu H4).
    - exact (isnan_not_le_r _ _ Hu H4).
    - exact (isnan_not_le_l _ _ Hu H6). }
  assert (Hcross : macd_cross_undefined df t -> ~ macd_bearish_cross df t).
  { unfold macd_bearish_cross, Float.ge.
    intros [Hu | [Hu | [Hu | Hu]]] [H1 H2].
    - exact (isnan_not_lt_l _ _ Hu H1).
    - exact (isnan_not_lt_r _ _ Hu H1).
    - exact (isnan_not_le_r _ _ Hu H2).
    - exact (isnan_not_le_l _ _ Hu H2). }
  assert (Hrsi : rsi_undefined df t -> ~ rsi_breakdown self df t).
  { intros Hu. exact (isnan_not_lt_l _ _ Hu). }
  assert (Hregime : regime_undefined candles df t ->
                    ~ regime_violation candles df t).
  { intros [Hu | Hu].
    - exact (isnan_not_lt_l _ _ Hu).
    - exact (isnan_not_lt_r _ _ Hu). }
  repeat split; try assumption.
  - intros ->. apply Hentry. do 2 right. left. reflexivity.
  - intros Hu1 Hu2 Hu3. apply Hnan2. rewrite Hiff2.
    intros [H | [H | H]]; [exact (Hcross Hu1 H) | exact (Hrsi Hu2 H) |
                            exact (Hregime Hu3 H)].
Qed.

Lemma undefined_values_no_signal_witness :
  exists df1 df2,
    populate_entry_trend SteddockMacdEma200Rsi (spec_indicators falling) ∅
    = Some df1
    /\ populate_exit_trend SteddockMacdEma200Rsi (spec_indicators falling) ∅
       = Some df2
    /\ Float.isnan (pd.cell df1 "enter_long" 3)
    /\ Float.isnan (pd.cell df2 "exit_long" 3).
Proof.
  destruct (undefined_values_no_signal (TA := ta_spec.spec)
              SteddockMacdEma200Rsi (closes falling) (spec_indicators falling)
              ∅ 3) as (df1 & df2 & Hrun1 & Hrun2 & Hentry & _ & _ & _ & _ & Hexit).
  - apply wf_closes.
  - split; reflexivity.
  - vm_compute. reflexivity.
  - vm_compute. lia.
  - exists df1, df2. repeat split; try assumption.
    + apply Hentry. right; left. vm_compute. reflexivity.
    + apply Hexit.
      * left. vm_compute. reflexivity.
      * vm_compute. reflexivity.
      * right. vm_compute. reflexivity.
Defined.

(** ** The indicators of the specification *)

Section spec_scan.

Context {S : Type} (step : S -> float -> S * float).

Lemma length_scan (st : S) (xs : Series) :
  length (ta_spec.scan step st xs) = length xs.
Proof.
  revert st. induction xs as [|x xs IH]; intros st; simpl; [reflexivity |].
  destruct (step st x) as [st' y]; simpl. now rewrite IH.
Qed.

(** A pass over the first [n] cells emits the first [n] cells of the pass
    over all of them. *)
Lemma scan_take (st : S) (xs : Series) (n : nat) :
  ta_spec.scan step st (take n xs) = take n (ta_spec.scan step st xs).
Proof.
  revert st n. induction xs as [|x xs IH]; intros st [|n]; simpl;
    try reflexivity.
  destruct (step st x) as [st' y]; simpl. now rewrite IH.
Qed.

(** What every step keeps ([I]) and emits ([P]) holds of the whole pass. *)
Lemma scan_Forall (I : S -> Prop) (P : float -> Prop) :
  (forall st x, I st -> I (step st x).1 /\ P (step st x).2) ->
  forall st xs, I st -> Forall P (ta_spec.scan step st xs).
Proof.
  intros Hstep st xs. revert st.
  induction xs as [|x xs IH]; intros st Hst; simpl; [constructor |].
  destruct (Hstep st x Hst) as [HI HP].
  destruct (step st x) as [st' y]; simpl in *. constructor; auto.
Qed.

End spec_scan.

(** ** The range of the RSI *)

Section rsi_range.

Implicit Types (x y : float) (n : nat).

Lemma nonneg_of_nat n : nonneg (Float.of_nat n).
Proof.
  simpl. change 0%Q with (inject_Z 0). rewrite <- Zle_Qle. lia.
Qed.

Lemma nonneg_add x y : nonneg x -> nonneg y -> nonneg (x + y)%float.
Proof.
  destruct x as [a|], y as [b|]; simpl; auto.
  intros Ha Hb. rewrite Qred_correct. lra.
Qed.

Lemma nonneg_mul x y : nonneg x -> nonneg y -> nonneg (x * y)%float.
Proof.
  destruct x as [a|], y as [b|]; simpl; auto.
  intros Ha Hb. rewrite Qred_correct. now apply Qmult_le_0_compat.
Qed.

Lemma nonneg_div x y : nonneg x -> nonneg y -> nonneg (x / y)%float.
Proof.
  destruct x as [a|], y as [b|]; unfold Float.div; simpl; auto.
  - destruct (Qeq_bool b (inject_Z 0)) eqn:Hb; simpl; [trivial |].
    intros Ha Hb0. rewrite Qred_correct.
    apply Qeq_bool_neq in Hb. change (inject_Z 0) with 0%Q in Hb.
    apply Qle_shift_div_l; lra.
  - now destruct (Qeq_bool b (inject_Z 0)).
Qed.

Lemma nonneg_positive_part x : nonneg (ta_spec.positive_part x).
Proof.
  destruct x as [a|]; simpl; [| trivial].
  destruct (Float.Qltb 0 a) eqn:Ha; [| lra].
  apply Qltb_lt in Ha. lra.
Qed.

(** [100 - 100 / (1 + avg_gain / avg_loss)] lies between 0 and 100. *)
Lemma percent_rsi_value x y :
  nonneg x -> nonneg y -> percent (ta_spec.rsi_value x y).
Proof.
  intros Hx Hy. unfold ta_spec.rsi_value.
  destruct y as [b|]; simpl.
  2: { destruct x; unfold Float.div; simpl; trivial. }
  destruct (Qeq_bool b (inject_Z 0)) eqn:Hb; simpl.
  { unfold Qle; simpl; lia. }
  destruct x as [a|]; unfold Float.div; simpl; rewrite ?Hb; simpl;
    [| trivial].
  simpl in Hx, Hy.
  apply Qeq_bool_neq in Hb. change (inject_Z 0) with 0%Q in Hb.
  assert (Hr : (0 <= Qred (a / b))%Q).
  { rewrite Qred_correct. apply Qle_shift_div_l; lra. }
  set (r := Qred (a / b)) in *. clearbody r.
  assert (Hs : (1 <= Qred (inject_Z 1 + r))%Q).
  { rewrite Qred_correct. change (inject_Z 1) with 1%Q. lra. }
  set (s := Qred (inject_Z 1 + r)) in *. clearbody s.
  destruct (Qeq_bool s (inject_Z 0)) eqn:Hs0; simpl; [trivial |].
  rewrite !Qred_correct. change (inject_Z 100) with 100%Q.
  assert (0 < 100 / s)%Q by (apply Qlt_shift_div_l; lra).
  assert (100 / s <= 100)%Q by (apply Qle_shift_div_r; lra).
  lra.
Qed.

Lemma rsi_step_inv n (st : ta_spec.rsi_state) x :
  rsi_inv st ->
  rsi_inv (ta_spec.rsi_step n st x).1 /\ percent (ta_spec.rsi_step n st x).2.
Proof.
  destruct st as [| prev k sg sl | prev ag al]; unfold ta_spec.rsi_step.
  - intros _. simpl. repeat split; unfold Qle; simpl; lia.
  - intros [Hg Hl].
    assert (nonneg (sg + ta_spec.positive_part (x - prev))%float)
      by auto using nonneg_add, nonneg_positive_part.
    assert (nonneg (sl + ta_spec.positive_part (prev - x))%float)
      by auto using nonneg_add, nonneg_positive_part.
    destruct (Datatypes.S k =? n); simpl.
    + split; [simpl; split |]; simpl;
        auto using nonneg_div, nonneg_of_nat, percent_rsi_value.
    + simpl. auto.
  - intros [Hg Hl].
    assert (forall avg change, nonneg avg -> nonneg change ->
              nonneg ((avg * Float.of_nat (n - 1) + change)
                      / Float.of_nat n)%float) as Hsmooth
      by auto using nonneg_div, nonneg_add, nonneg_mul, nonneg_of_nat.
    split; [simpl; split |]; simpl;
      auto using percent_rsi_value, nonneg_positive_part.
Qed.

(** Every cell of the RSI of the specification is undefined or lies between
    0 and 100. *)
Lemma RSI_percent (real : Series) n : Forall percent (ta_spec.RSI real n).
Proof.
  unfold ta_spec.RSI.
  apply (scan_Forall (ta_spec.rsi_step n) rsi_inv percent);
    [apply rsi_step_inv | exact I].
Qed.

End rsi_range.

(** ** The warm-up of the indicators *)

Section warm_up.

Implicit Types (real s : Series) (t n : nat).

(** A stored column holds a defined cell only where the series does. *)
Lemma iloc_resize_Some s n t q :
  pd.iloc (resize n Float.nan s) t = Some q -> pd.iloc s t = Some q.
Proof.
  unfold pd.iloc. destruct (decide (t < n)) as [Hn | Hn].
  - destruct (decide (t < length s)) as [Hs | Hs].
    + now rewrite lookup_resize by assumption.
    + rewrite lookup_resize_new by lia. discriminate.
  - rewrite lookup_resize_old by lia. discriminate.
Qed.

Lemma iloc_resize_nan s n t :
  pd.iloc s t = Float.nan -> pd.iloc (resize n Float.nan s) t = Float.nan.
Proof.
  intros Hs. destruct (pd.iloc (resize n Float.nan s) t) as [q|] eqn:Hq;
    [| reflexivity].
  apply iloc_resize_Some in Hq. congruence.
Qed.

Lemma rsi_warming n prev k sg sl s t :
  t + k + 1 < n ->
  pd.iloc (ta_spec.scan (ta_spec.rsi_step n) (ta_spec.Warming prev k sg sl) s) t
  = Float.nan.
Proof.
  revert prev k sg sl t. induction s as [|x s IH]; intros prev k sg sl t Ht.
  { reflexivity. }
  cbn [ta_spec.scan ta_spec.rsi_step].
  destruct (Nat.eqb_spec (Datatypes.S k) n) as [Heq | _]; [lia |].
  destruct t as [|t]; [reflexivity |].
  unfold pd.iloc in *; simpl. apply IH. lia.
Qed.

(** The RSI of the specification is undefined at the first [n] positions. *)
Lemma RSI_warm_up real n t :
  t < n -> pd.iloc (ta_spec.RSI real n) t = Float.nan.
Proof.
  intros Ht. unfold ta_spec.RSI. destruct real as [|x s]; [reflexivity |].
  destruct t as [|t]; [reflexivity |].
  unfold pd.iloc; simpl. apply rsi_warming. lia.
Qed.

Lemma ema_seeded n k e s t :
  t + k + 1 < n ->
  pd.iloc (ta_spec.scan (ta_spec.ema_step n) (ta_spec.Seeded k e) s) t
  = Float.nan.
Proof.
  revert k e t. induction s as [|x s IH]; intros k e t Ht; [reflexivity |].
  cbn [ta_spec.scan ta_spec.ema_step].
  destruct t as [|t].
  - unfold pd.iloc; simpl.
    destruct (Nat.leb_spec n (Datatypes.S k)); [lia | reflexivity].
  - unfold pd.iloc in *; simpl. apply IH. lia.
Qed.

(** The EMA of the specification is undefined at the first [n - 1]
    positions. *)
Lemma EMA_warm_up real n t :
  t + 1 < n -> pd.iloc (ta_spec.EMA real n) t = Float.nan.
Proof.
  unfold ta_spec.EMA. revert t.
  induction real as [|x s IH]; intros t Ht; [reflexivity |].
  cbn [ta_spec.scan ta_spec.ema_step]. destruct x as [q|].
  - destruct t as [|t].
    + unfold pd.iloc; simpl.
      destruct (Nat.leb_spec n 1); [lia | reflexivity].
    + unfold pd.iloc; simpl. apply ema_seeded. lia.
  - destruct t as [|t]; [reflexivity |].
    unfold pd.iloc in *; simpl. apply IH. lia.
Qed.

Lemma iloc_zip_with_sub (a b : Series) t :
  pd.iloc b t = Float.nan -> pd.iloc (zip_with Float.sub a b) t = Float.nan.
Proof.
  unfold pd.iloc. rewrite lookup_zip_with.
  destruct (a !! t) as [x|], (b !! t) as [y|]; simpl; try reflexivity.
  intros ->. now destruct x.
Qed.

(** The MACD line of the specification is undefined until its slow EMA is
    defined. *)
Lemma MACD_warm_up real fast slow signal t :
  t + 1 < slow ->
  pd.iloc (talib.macd (ta_spec.MACD real fast slow signal)) t = Float.nan.
Proof.
  intros Ht. unfold ta_spec.MACD; simpl.
  now apply iloc_zip_with_sub, EMA_warm_up.
Qed.

End warm_up.

(** C7: for every series of candles and every position [t] at which
    [rsi[t]] is defined, [0 <= rsi[t] <= 100]; the RSI is defined at no
    position before 14, its window. *)
Theorem rsi_between_0_and_100 (self : IStrategy) (candles df : DataFrame)
    (metadata : Dict) (t : nat) (q : Q) :
  populate_indicators (TA := ta_spec.spec) self candles metadata = Some df ->
  pd.cell df "rsi" t = Float.of_Q q ->
  (0 <= q <= 100)%Q /\ 14 <= t.
Proof.
  intros Hind Hq.
  apply populate_indicators_inv in Hind as (real & _ & ->).
  unfold pd.cell, with_indicators in Hq; simpl in Hq.
  rewrite lookup_insert_eq in Hq; simpl in Hq.
  apply iloc_resize_Some in Hq. split.
  - pose proof (RSI_percent real 14) as Hall.
    unfold pd.iloc in Hq.
    destruct (ta_spec.RSI real 14 !! t) as [x|] eqn:Hx; [| discriminate].
    simpl in Hq. subst x.
    exact (proj1 (Forall_lookup _ _) Hall t _ Hx).
  - destruct (decide (14 <= t)) as [|Hlt]; [assumption |].
    rewrite RSI_warm_up in Hq by lia. discriminate.
Qed.

Lemma rsi_between_0_and_100_witness : (0 <= 0 <= 100)%Q /\ 14 <= 14.
Proof.
  apply (rsi_between_0_and_100 SteddockMacdEma200Rsi (closes falling)
           (spec_indicators falling) ∅ 14 0).
  - vm_compute. reflexivity.
  - vm_compute. reflexivity.
Defined.

(** ** Signals during the warm-up *)

(** C3, as stated, fails: in a series that is flat for 197 candles and then
    dips and recovers, [exit_long] is set at position 197 and [enter_long]
    at position 200, both below the threshold 201. *)
Lemma warm_up_masking_counterexample :
  analyze_ticker (TA := ta_spec.spec) SteddockMacdEma200Rsi
    (closes dip_and_recover) ∅ = Some (spec_run dip_and_recover)
  /\ 197 < 201 /\ is_set (pd.cell (spec_run dip_and_recover) "exit_long" 197)
  /\ 200 < 201 /\ is_set (pd.cell (spec_run dip_and_recover) "enter_long" 200).
Proof.
  split; [vm_compute; reflexivity |].
  split; [lia |]. split; [vm_compute; reflexivity |].
  split; [lia |]. vm_compute; reflexivity.
Qed.

(** The exit signal does not wait for the EMA200 at all: fifteen falling
    candles set it at position 14, where the RSI is first defined. *)
Lemma exit_long_at_14 :
  is_set (pd.cell (spec_run falling) "exit_long" 14).
Proof. vm_compute. reflexivity. Qed.

(** C3, amended: under the default configuration [enter_long[t]] is unset at
    every position [t < 200] (the one-step lag of the 200-period EMA is
    undefined there) and [exit_long[t]] is unset at every position [t < 14]
    (no indicator is defined before the 14-period RSI is). *)
Theorem warm_up_masking (candles df : DataFrame) (metadata : Dict) (t : nat) :
  pd.wf candles -> no_signals candles ->
  analyze_ticker (TA := ta_spec.spec) SteddockMacdEma200Rsi candles metadata
  = Some df ->
  (t < 200 -> Float.isnan (pd.cell df "enter_long" t))
  /\ (t < 14 -> Float.isnan (pd.cell df "exit_long" t)).
Proof.
  intros Hwf Hfresh Hrun.
  destruct (analyze_ticker_inv SteddockMacdEma200Rsi candles metadata df
              Hwf Hrun) as (dfi & Hind & _).
  destruct (analyze_ticker_signals SteddockMacdEma200Rsi candles metadata df
              dfi t Hwf Hfresh Hind Hrun) as (_ & Hentry & _ & Hexit).
  apply populate_indicators_inv in Hind as (real & Hclose & ->).
  set (dfi := with_indicators SteddockMacdEma200Rsi candles real) in *.
  assert (Hema : forall i, i < 199 -> pd.cell dfi "ema200" i = Float.nan).
  { intros i Hi. unfold pd.cell, dfi, with_indicators; simpl.
    repeat (rewrite ?lookup_insert_eq; rewrite ?lookup_insert_ne by done).
    simpl. apply iloc_resize_nan, EMA_warm_up. lia. }
  assert (Hrsi : forall i, i < 14 -> pd.cell dfi "rsi" i = Float.nan).
  { intros i Hi. unfold pd.cell, dfi, with_indicators; simpl.
    rewrite lookup_insert_eq; simpl. now apply iloc_resize_nan, RSI_warm_up. }
  assert (Hmacd : forall i, i < 25 -> pd.cell dfi "macd" i = Float.nan).
  { intros i Hi.
    rewrite (cell_getitem dfi "macd"
               (resize (pd.index candles) Float.nan
                  (talib.macd (ta_spec.MACD real 12 26 9)))).
    - apply iloc_resize_nan, MACD_warm_up. lia.
    - unfold pd.getitem, dfi, with_indicators; cbn [pd.columns].
      repeat (rewrite ?lookup_insert_eq; rewrite ?lookup_insert_ne by done).
      reflexivity. }
  split; intros Ht.
  - apply Hentry. intros (_ & Hrise & _). unfold Float.gt in Hrise.
    destruct (decide (t < pd.index candles)) as [Hin | Hout].
    + destruct (with_indicators_lags (TA := ta_spec.spec)
                  SteddockMacdEma200Rsi candles real t Hin) as (Hlag & _). fold dfi in Hlag. rewrite Hlag in Hrise.
      destruct t as [|k].
      * exact (lt_nan_l (pd.cell dfi "ema200" 0) Hrise).
      * change (pd.lag dfi "ema200" (S k)) with (pd.cell dfi "ema200" k)
          in Hrise.
        rewrite Hema in Hrise by lia. exact (lt_nan_l _ Hrise).
    + destruct (decide (t < 199)) as [H199 | H199].
      * rewrite (Hema t H199) in Hrise. exact (lt_nan_r _ Hrise).
      * assert (t = 199) as -> by lia.
        assert (Hnone : pd.cell dfi "ema200" 199 = Float.nan).
        { unfold pd.cell, dfi, with_indicators; simpl.
          repeat (rewrite ?lookup_insert_eq; rewrite ?lookup_insert_ne by done).
          simpl. rewrite lookup_resize_old by lia. reflexivity. }
        rewrite Hnone in Hrise. exact (lt_nan_r _ Hrise).
  - apply Hexit. intros [[Hm _] | [Hr | Hc]].
    + rewrite Hmacd in Hm by lia. exact (lt_nan_l _ Hm).
    + rewrite Hrsi in Hr by lia. exact (lt_nan_l _ Hr).
    + rewrite Hema in Hc by lia. exact (lt_nan_r _ Hc).
Qed.

Lemma warm_up_masking_witness :
  (199 < 200 -> Float.isnan (pd.cell (spec_run dip_and_recover) "enter_long" 199))
  /\ (199 < 14 -> Float.isnan (pd.cell (spec_run dip_and_recover) "exit_long" 199)).
Proof.
  apply (warm_up_masking (closes dip_and_recover) (spec_run dip_and_recover) ∅ 199).
  - apply wf_closes.
  - split; reflexivity.
  - vm_compute. reflexivity.
Defined.

(** ** Causality *)

Section truncation.

Context `{TA : TALib}.
Implicit Types (self : IStrategy) (df : DataFrame) (s : Series) (m : Mask)
  (k : nat) (md : Dict).

Lemma shift_take s k : pd.shift (take k s) = take k (pd.shift s).
Proof.
  unfold pd.shift. rewrite take_take, length_take.
  destruct (Nat.min k (length s)) as [|j] eqn:Hj; [reflexivity |].
  simpl. f_equal. rewrite take_take. f_equal. lia.
Qed.

(** Storing the first [k] cells in the first [k] rows, or storing the
    column and keeping its first [k] rows. *)
Lemma fit_take s k n :
  resize (Nat.min k n) Float.nan (take k s)
  = take k (resize n Float.nan s).
Proof. rewrite take_resize. apply resize_take_le. lia. Qed.

Lemma getitem_head df c k :
  pd.getitem (pd.head k df) c = take k <$> pd.getitem df c.
Proof. unfold pd.getitem, pd.head; simpl. apply lookup_fmap. Qed.

Lemma cell_head df c k i :
  i < k -> pd.cell (pd.head k df) c i = pd.cell df c i.
Proof.
  intros Hi. unfold pd.cell, pd.head; simpl. rewrite lookup_fmap.
  destruct (pd.columns df !! c) as [s|]; simpl; [| reflexivity].
  now rewrite lookup_take_lt.
Qed.

Lemma with_indicators_head self df real k :
  causal TA ->
  with_indicators self (pd.head k df) (take k real)
  = pd.head k (with_indicators self df real).
Proof.
  intros (Hema & Hmacd & Hrsi).
  unfold with_indicators, pd.head; simpl. f_equal.
  destruct (Hmacd real 12 26 9 k) as (-> & -> & ->).
  rewrite Hema, Hrsi, !fmap_insert, !fit_take, !shift_take, !fit_take.
  reflexivity.
Qed.

Lemma entry_mask_head self df k :
  entry_mask self (pd.head k df) = take k <$> entry_mask self df.
Proof.
  unfold entry_mask. rewrite !getitem_head.
  repeat match goal with
    | |- context [pd.getitem df ?c] =>
        destruct (pd.getitem df c); simpl; [| reflexivity]
    end.
  unfold pd.and_, pd.gt, pd.le, pd.ge_scalar, pd.le_scalar.
  now rewrite !fmap_take, <- !zip_with_take.
Qed.

Lemma exit_mask_head self df k :
  exit_mask self (pd.head k df) = take k <$> exit_mask self df.
Proof.
  unfold exit_mask. rewrite !getitem_head.
  repeat match goal with
    | |- context [pd.getitem df ?c] =>
        destruct (pd.getitem df c); simpl; [| reflexivity]
    end.
  unfold pd.or_, pd.and_, pd.lt, pd.ge, pd.lt_scalar.
  now rewrite !fmap_take, <- !zip_with_take.
Qed.

Lemma loc_setitem_head df m c v k :
  pd.loc_setitem (pd.head k df) (take k m) c v
  = pd.head k (pd.loc_setitem df m c v).
Proof.
  unfold pd.loc_setitem, pd.head; simpl. f_equal.
  rewrite fmap_insert, lookup_fmap, zip_with_take.
  destruct (pd.columns df !! c) as [s|]; simpl; [reflexivity |].
  now rewrite take_replicate.
Qed.

(** The run on the first [k] rows is the first [k] rows of the run. *)
Lemma analyze_ticker_head self df md k :
  causal TA ->
  analyze_ticker self (pd.head k df) md
  = pd.head k <$> analyze_ticker self df md.
Proof.
  intros Hcausal. unfold analyze_ticker.
  rewrite !populate_indicators_eq, getitem_head.
  destruct (pd.getitem df "close") as [real|]; simpl; [| reflexivity].
  rewrite with_indicators_head by exact Hcausal.
  unfold populate_entry_trend. rewrite entry_mask_head.
  destruct (entry_mask self _) as [m1|]; simpl; [| reflexivity].
  rewrite loc_setitem_head.
  unfold populate_exit_trend. rewrite exit_mask_head.
  destruct (exit_mask self _) as [m2|]; simpl; [| reflexivity].
  now rewrite loc_setitem_head.
Qed.

End truncation.

(** The recurrences of the specification are causal. *)
Lemma spec_causal : causal ta_spec.spec.
Proof.
  assert (Hema : forall real n k,
            ta_spec.EMA (take k real) n = take k (ta_spec.EMA real n))
    by (intros; apply scan_take).
  split; [exact Hema |]. split; [| intros; apply scan_take].
  intros real fast slow signal k. unfold ta_spec.MACD; simpl.
  assert (Hline : zip_with Float.sub (ta_spec.EMA (take k real) fast)
                    (ta_spec.EMA (take k real) slow)
                  = take k (zip_with Float.sub (ta_spec.EMA real fast)
                              (ta_spec.EMA real slow)))
    by now rewrite !Hema, zip_with_take.
  rewrite Hline, Hema. repeat split.
  set (macd := zip_with Float.sub (ta_spec.EMA real fast)
                 (ta_spec.EMA real slow)).
  now rewrite (zip_with_take _ k macd).
Qed.

(** C6: causality, no look-ahead.  For every series of candles and every
    position [t], the indicators ([ema200], [ema200_prev], [macd],
    [macdsignal], [macdhist], [macd_prev], [macdsignal_prev], [rsi]) and the
    signals ([enter_long], [exit_long]) at the positions up to [t] depend on
    the candles at the positions up to [t] only: the run on the series cut
    after position [t] is the run on the whole series cut after [t], and two
    series that agree up to [t] get the same values up to [t]. *)
Theorem no_look_ahead (self : IStrategy) (candles df : DataFrame)
    (metadata : Dict) (t : nat) :
  analyze_ticker (TA := ta_spec.spec) self candles metadata = Some df ->
  analyze_ticker (TA := ta_spec.spec) self (pd.head (S t) candles) metadata
  = Some (pd.head (S t) df)
  /\ (forall c i, i <= t -> pd.cell (pd.head (S t) df) c i = pd.cell df c i)
  /\ (forall candles' df',
        pd.head (S t) candles' = pd.head (S t) candles ->
        analyze_ticker (TA := ta_spec.spec) self candles' metadata = Some df' ->
        forall c i, i <= t -> pd.cell df' c i = pd.cell df c i).
Proof.
  intros Hrun.
  pose proof (analyze_ticker_head (TA := ta_spec.spec) self candles metadata
                (S t) spec_causal) as Hcut.
  rewrite Hrun in Hcut.
  change (pd.head (S t) <$> Some df) with (Some (pd.head (S t) df)) in Hcut.
  split; [exact Hcut |]. split.
  - intros c i Hi. apply cell_head. lia.
  - intros candles' df' Hsame Hrun' c i Hi.
    pose proof (analyze_ticker_head (TA := ta_spec.spec) self candles'
                  metadata (S t) spec_causal) as Hcut'.
    rewrite Hrun', Hsame, Hcut in Hcut'.
    change (pd.head (S t) <$> Some df') with (Some (pd.head (S t) df'))
      in Hcut'.
    assert (Heq : pd.head (S t) df = pd.head (S t) df') by congruence.
    rewrite <- (cell_head df c (S t) i), <- (cell_head df' c (S t) i) by lia.
    now rewrite Heq.
Qed.

Lemma no_look_ahead_witness :
  analyze_ticker (TA := ta_spec.spec) SteddockMacdEma200Rsi
    (pd.head 198 (closes dip_and_recover)) ∅
  = Some (pd.head 198 (spec_run dip_and_recover)).
Proof.
  destruct (no_look_ahead SteddockMacdEma200Rsi (closes dip_and_recover)
              (spec_run dip_and_recover) ∅ 197) as [Hcut _].
  - vm_compute. reflexivity.
  - exact Hcut.
Defined.

(** * Further properties of the three methods *)

(** ** [populate_indicators] *)

(** X2: the frame of [populate_indicators].  The number of rows is kept;
    every column that is not one of the eight indicator columns is as it
    was; each of the eight is there afterwards, with one cell per row; a
    well-formed frame stays well-formed. *)
Theorem populate_indicators_frame `{TA : TALib} (self : IStrategy)
    (dataframe df : DataFrame) (metadata : Dict) :
  populate_indicators self dataframe metadata = Some df ->
  pd.index df = pd.index dataframe
  /\ (forall c, c ∉ indicator_columns ->
        pd.getitem df c = pd.getitem dataframe c)
  /\ (forall c, c ∈ indicator_columns ->
        exists s, pd.getitem df c = Some s /\ length s = pd.index dataframe)
  /\ (pd.wf dataframe -> pd.wf df).
Proof.
  intros H. apply populate_indicators_inv in H as (real & Hclose & ->).
  split; [reflexivity |]. split.
  { intros c Hc. now apply with_indicators_other. }
  split; [| apply wf_with_indicators].
  intros c Hc. unfold indicator_columns in Hc.
  rewrite !elem_of_cons, elem_of_nil in Hc.
  unfold pd.getitem, with_indicators; cbn [pd.columns].
  destruct Hc as [-> | [-> | [-> | [-> | [-> | [-> | [-> | [-> | []]]]]]]]];
    repeat (rewrite ?lookup_insert_eq; rewrite ?lookup_insert_ne by done);
    eexists; (split; [reflexivity | apply length_resize]).
Qed.

Lemma populate_indicators_frame_witness :
  pd.index (spec_indicators falling) = pd.index (closes falling)
  /\ (forall c, c ∉ indicator_columns ->
        pd.getitem (spec_indicators falling) c = pd.getitem (closes falling) c)
  /\ (forall c, c ∈ indicator_columns ->
        exists s, pd.getitem (spec_indicators falling) c = Some s
                  /\ length s = pd.index (closes falling))
  /\ (pd.wf (closes falling) -> pd.wf (spec_indicators falling)).
Proof.
  apply (populate_indicators_frame (TA := ta_spec.spec) SteddockMacdEma200Rsi
           (closes falling) (spec_indicators falling) ∅).
  vm_compute. reflexivity.
Defined.

(** X3: the lag columns.  After [populate_indicators], at every row [t] of
    the frame, [ema200_prev[t]], [macd_prev[t]] and [macdsignal_prev[t]] are
    the cells of [ema200], [macd] and [macdsignal] one row earlier, and NaN
    at row 0: [shift(1)] never reads a later row. *)
Theorem lag_columns `{TA : TALib} (self : IStrategy)
    (dataframe df : DataFrame) (metadata : Dict) (t : nat) :
  populate_indicators self dataframe metadata = Some df ->
  t < pd.index dataframe ->
  pd.cell df "ema200_prev" t
  = match t with O => Float.nan | S k => pd.cell df "ema200" k end
  /\ pd.cell df "macd_prev" t
     = match t with O => Float.nan | S k => pd.cell df "macd" k end
  /\ pd.cell df "macdsignal_prev" t
     = match t with O => Float.nan | S k => pd.cell df "macdsignal" k end.
Proof.
  intros H Ht. apply populate_indicators_inv in H as (real & _ & ->).
  exact (with_indicators_lags self dataframe real t Ht).
Qed.

Lemma lag_columns_witness :
  pd.cell (spec_indicators dip_and_recover) "ema200_prev" 200
  = pd.cell (spec_indicators dip_and_recover) "ema200" 199
  /\ pd.cell (spec_indicators dip_and_recover) "macd_prev" 200
     = pd.cell (spec_indicators dip_and_recover) "macd" 199
  /\ pd.cell (spec_indicators dip_and_recover) "macdsignal_prev" 200
     = pd.cell (spec_indicators dip_and_recover) "macdsignal" 199.
Proof.
  apply (lag_columns (TA := ta_spec.spec) SteddockMacdEma200Rsi
           (closes dip_and_recover) (spec_indicators dip_and_recover) ∅ 200).
  - vm_compute. reflexivity.
  - vm_compute. lia.
Defined.

(** ** The signal columns *)

Section signal_column.

Implicit Types (df : DataFrame) (m : Mask) (c : string) (v : float).

(** [df.loc[mask, c] = v] leaves a column [c] of one cell per row, each the
    value [v] or the cell that was there. *)
Lemma loc_setitem_column df m c v :
  pd.wf df -> length m = pd.index df ->
  exists s,
    pd.getitem (pd.loc_setitem df m c v) c = Some s
    /\ length s = pd.index df
    /\ (pd.getitem df c = None -> Forall (fun x => x = v \/ x = Float.nan) s).
Proof.
  intros Hwf Hm. unfold pd.getitem, pd.loc_setitem; cbn [pd.columns].
  rewrite lookup_insert_eq. eexists. split; [reflexivity |]. split.
  - rewrite length_zip_with, length_old_column by assumption. lia.
  - intros ->. simpl. clear Hm. revert m.
    induction (pd.index df) as [|n IH]; intros [|b m]; simpl; constructor.
    + destruct b; auto.
    + apply IH.
Qed.

End signal_column.

(** X6: [populate_entry_trend] always leaves a column [enter_long], also when
    no row satisfies the rule: it has one cell per row, the frame stays
    well-formed, and if the column was not there before, every cell is 1 or
    NaN. *)
Theorem enter_long_column (self : IStrategy) (dataframe df : DataFrame)
    (metadata : Dict) :
  pd.wf dataframe ->
  populate_entry_trend self dataframe metadata = Some df ->
  pd.wf df
  /\ exists s,
      pd.getitem df "enter_long" = Some s
      /\ length s = pd.index dataframe
      /\ (pd.getitem dataframe "enter_long" = None ->
          Forall (fun x => is_set x \/ Float.isnan x) s).
Proof.
  intros Hwf H. unfold populate_entry_trend in H.
  destruct (entry_mask self dataframe) as [m|] eqn:Hm; simpl in H;
    [| discriminate].
  injection H as <-.
  pose proof (entry_mask_length self dataframe m Hwf Hm) as Hlen.
  split; [now apply wf_loc_setitem |].
  exact (loc_setitem_column dataframe m "enter_long" (Float.of_int 1) Hwf Hlen).
Qed.

Lemma enter_long_column_witness :
  pd.wf (default warming_up
           (populate_entry_trend SteddockMacdEma200Rsi warming_up ∅))
  /\ exists s,
      pd.getitem (default warming_up
                    (populate_entry_trend SteddockMacdEma200Rsi warming_up ∅))
        "enter_long" = Some s
      /\ length s = pd.index warming_up
      /\ (pd.getitem warming_up "enter_long" = None ->
          Forall (fun x => is_set x \/ Float.isnan x) s).
Proof.
  apply (enter_long_column SteddockMacdEma200Rsi warming_up _ ∅).
  - apply (bool_decide_unpack _). vm_compute. reflexivity.
  - vm_compute. reflexivity.
Defined.

(** X7: [populate_exit_trend] always leaves a column [exit_long], also when
    no row satisfies the rule: it has one cell per row, the frame stays
    well-formed, and if the column was not there before, every cell is 1 or
    NaN. *)
Theorem exit_long_column (self : IStrategy) (dataframe df : DataFrame)
    (metadata : Dict) :
  pd.wf dataframe ->
  populate_exit_trend self dataframe metadata = Some df ->
  pd.wf df
  /\ exists s,
      pd.getitem df "exit_long" = Some s
      /\ length s = pd.index dataframe
      /\ (pd.getitem dataframe "exit_long" = None ->
          Forall (fun x => is_set x \/ Float.isnan x) s).
Proof.
  intros Hwf H. unfold populate_exit_trend in H.
  destruct (exit_mask self dataframe) as [m|] eqn:Hm; simpl in H;
    [| discriminate].
  injection H as <-.
  pose proof (exit_mask_length self dataframe m Hwf Hm) as Hlen.
  split; [now apply wf_loc_setitem |].
  exact (loc_setitem_column dataframe m "exit_long" (Float.of_int 1) Hwf Hlen).
Qed.

Lemma exit_long_column_witness :
  pd.wf (default warming_up
           (populate_exit_trend SteddockMacdEma200Rsi warming_up ∅))
  /\ exists s,
      pd.getitem (default warming_up
                    (populate_exit_trend SteddockMacdEma200Rsi warming_up ∅))
        "exit_long" = Some s
      /\ length s = pd.index warming_up
      /\ (pd.getitem warming_up "exit_long" = None ->
          Forall (fun x => is_set x \/ Float.isnan x) s).
Proof.
  apply (exit_long_column SteddockMacdEma200Rsi warming_up _ ∅).
  - apply (bool_decide_unpack _). vm_compute. reflexivity.
  - vm_compute. reflexivity.
Defined.

(** ** How the two rules compose *)

Section composition.

Implicit Types (self : IStrategy) (df : DataFrame) (m : Mask) (md : Dict).

Lemma entry_mask_after_exit self df m v :
  entry_mask self (pd.loc_setitem df m "exit_long" v) = entry_mask self df.
Proof.
  apply entry_mask_ext. intros c Hc. unfold pd.getitem.
  apply columns_loc_setitem_ne. intros <-. revert Hc.
  unfold entry_columns. rewrite !elem_of_cons, elem_of_nil.
  intuition discriminate.
Qed.

Lemma exit_mask_after_entry self df m v :
  exit_mask self (pd.loc_setitem df m "enter_long" v) = exit_mask self df.
Proof.
  apply exit_mask_ext. intros c Hc. unfold pd.getitem.
  apply columns_loc_setitem_ne. intros <-. revert Hc.
  unfold exit_columns. rewrite !elem_of_cons, elem_of_nil.
  intuition discriminate.
Qed.

(** Writes to two different columns can be swapped. *)
Lemma loc_setitem_commute df m1 m2 c1 c2 v1 v2 :
  c1 <> c2 ->
  pd.loc_setitem (pd.loc_setitem df m1 c1 v1) m2 c2 v2
  = pd.loc_setitem (pd.loc_setitem df m2 c2 v2) m1 c1 v1.
Proof.
  intros Hne. unfold pd.loc_setitem; cbn [pd.index pd.columns]. f_equal.
  rewrite (lookup_insert_ne _ c1 c2) by exact Hne.
  rewrite (lookup_insert_ne _ c2 c1) by congruence.
  now apply insert_insert_ne.
Qed.

End composition.

(** X8: the order of the two rules does not matter for the cells.  If
    [populate_entry_trend] followed by [populate_exit_trend] returns a frame,
    so does [populate_exit_trend] followed by [populate_entry_trend], and
    conversely; the two frames have the same rows and, column by column, the
    same cells (the order in which pandas lists the columns is not part of
    the statement): neither rule reads or writes the column of the other. *)
Theorem entry_exit_order (self : IStrategy) (dataframe : DataFrame)
    (metadata : Dict) :
  let entry_exit :=
    populate_entry_trend self dataframe metadata
      ≫= fun df => populate_exit_trend self df metadata in
  let exit_entry :=
    populate_exit_trend self dataframe metadata
      ≫= fun df => populate_entry_trend self df metadata in
  (forall df, entry_exit = Some df ->
     exists df', exit_entry = Some df' /\ same_cells df df')
  /\ (forall df', exit_entry = Some df' ->
       exists df, entry_exit = Some df /\ same_cells df df').
Proof.
  assert (Heq :
    (populate_entry_trend self dataframe metadata
       ≫= fun df => populate_exit_trend self df metadata)
    = (populate_exit_trend self dataframe metadata
         ≫= fun df => populate_entry_trend self df metadata)).
  { unfold populate_entry_trend, populate_exit_trend.
    destruct (entry_mask self dataframe) as [m1|] eqn:H1,
             (exit_mask self dataframe) as [m2|] eqn:H2; simpl;
      rewrite ?exit_mask_after_entry, ?entry_mask_after_exit, ?H1, ?H2; simpl;
      try reflexivity.
    f_equal. now apply loc_setitem_commute. }
  cbv zeta. rewrite <- Heq. split.
  - intros df Hdf. exists df. repeat split; auto.
  - intros df' Hdf'. exists df'. repeat split; auto.
Qed.

Lemma entry_exit_order_witness :
  exists df',
    (populate_exit_trend SteddockMacdEma200Rsi warming_up ∅
       ≫= fun df => populate_entry_trend SteddockMacdEma200Rsi df ∅)
    = Some df'
    /\ same_cells
         (default warming_up
            (populate_entry_trend SteddockMacdEma200Rsi warming_up ∅
               ≫= fun df => populate_exit_trend SteddockMacdEma200Rsi df ∅))
         df'.
Proof.
  apply (proj1 (entry_exit_order SteddockMacdEma200Rsi warming_up ∅)).
  vm_compute. reflexivity.
Defined.

(** X9: a rule run twice is the rule run once.  The frame that
    [populate_entry_trend] returns is returned unchanged by a second call,
    and so is the frame that [populate_exit_trend] returns. *)
Theorem rules_idempotent (self : IStrategy)
    (dataframe dataframe' df1 df2 : DataFrame) (metadata : Dict) :
  populate_entry_trend self dataframe metadata = Some df1 ->
  populate_exit_trend self dataframe' metadata = Some df2 ->
  populate_entry_trend self df1 metadata = Some df1
  /\ populate_exit_trend self df2 metadata = Some df2.
Proof.
  unfold populate_entry_trend, populate_exit_trend. intros H1 H2.
  destruct (entry_mask self dataframe) as [m1|] eqn:Hm1; simpl in H1;
    [| discriminate].
  destruct (exit_mask self dataframe') as [m2|] eqn:Hm2; simpl in H2;
    [| discriminate].
  injection H1 as <-. injection H2 as <-. split.
  - rewrite (entry_mask_ext self _ dataframe), Hm1; simpl.
    + f_equal. eapply loc_setitem_absorb.
      unfold pd.loc_setitem; cbn [pd.columns]. apply lookup_insert_eq.
    + intros c Hc. unfold pd.getitem. apply columns_loc_setitem_ne.
      intros <-. revert Hc. unfold entry_columns.
      rewrite !elem_of_cons, elem_of_nil. intuition discriminate.
  - rewrite (exit_mask_ext self _ dataframe'), Hm2; simpl.
    + f_equal. eapply loc_setitem_absorb.
      unfold pd.loc_setitem; cbn [pd.columns]. apply lookup_insert_eq.
    + intros c Hc. unfold pd.getitem. apply columns_loc_setitem_ne.
      intros <-. revert Hc. unfold exit_columns.
      rewrite !elem_of_cons, elem_of_nil. intuition discriminate.
Qed.

Lemma rules_idempotent_witness :
  populate_entry_trend SteddockMacdEma200Rsi
    (default warming_up
       (populate_entry_trend SteddockMacdEma200Rsi warming_up ∅)) ∅
  = Some (default warming_up
            (populate_entry_trend SteddockMacdEma200Rsi warming_up ∅))
  /\ populate_exit_trend SteddockMacdEma200Rsi
       (default warming_up
          (populate_exit_trend SteddockMacdEma200Rsi warming_up ∅)) ∅
     = Some (default warming_up
               (populate_exit_trend SteddockMacdEma200Rsi warming_up ∅)).
Proof.
  apply (rules_idempotent SteddockMacdEma200Rsi warming_up warming_up _ _ ∅).
  - vm_compute. reflexivity.
  - vm_compute. reflexivity.
Defined.

(** X10: the rules only ever set signals.  A cell of [enter_long] that is
    set before [populate_entry_trend] is set after it, whether or not the
    rule holds at its row, and likewise for [exit_long] and
    [populate_exit_trend]: a frame that is analysed again keeps the signals
    of the earlier run. *)
Theorem signals_never_cleared (self : IStrategy)
    (dataframe dataframe' df1 df2 : DataFrame) (metadata : Dict) (t : nat) :
  pd.wf dataframe ->
  populate_entry_trend self dataframe metadata = Some df1 ->
  pd.wf dataframe' ->
  populate_exit_trend self dataframe' metadata = Some df2 ->
  (is_set (pd.cell dataframe "enter_long" t) ->
   is_set (pd.cell df1 "enter_long" t))
  /\ (is_set (pd.cell dataframe' "exit_long" t) ->
      is_set (pd.cell df2 "exit_long" t)).
Proof.
  intros Hwf1 H1 Hwf2 H2.
  destruct (populate_entry_trend_cell self dataframe metadata df1 t Hwf1 H1)
    as [Hy1 Hn1].
  destruct (populate_exit_trend_cell self dataframe' metadata df2 t Hwf2 H2)
    as [Hy2 Hn2].
  split; intros Hset.
  - destruct (entry_rule_dec self dataframe t) as [Hr | Hr]; [auto |].
    now rewrite (Hn1 Hr).
  - destruct (exit_rule_dec self dataframe' t) as [Hr | Hr]; [auto |].
    now rewrite (Hn2 Hr).
Qed.

Lemma signals_never_cleared_witness :
  is_set (pd.cell (default signalled
                     (populate_entry_trend SteddockMacdEma200Rsi signalled ∅))
            "enter_long" 3)
  /\ is_set (pd.cell (default signalled
                        (populate_exit_trend SteddockMacdEma200Rsi signalled ∅))
               "exit_long" 3).
Proof.
  destruct (signals_never_cleared SteddockMacdEma200Rsi signalled signalled
              (default signalled
                 (populate_entry_trend SteddockMacdEma200Rsi signalled ∅))
              (default signalled
                 (populate_exit_trend SteddockMacdEma200Rsi signalled ∅))
              ∅ 3) as [Hin Hout].
  - apply (bool_decide_unpack _). vm_compute. reflexivity.
  - vm_compute. reflexivity.
  - apply (bool_decide_unpack _). vm_compute. reflexivity.
  - vm_compute. reflexivity.
  - split; [apply Hin | apply Hout]; vm_compute; reflexivity.
Defined.

(** ** What the methods read *)

Section agreement.

Context `{TA : TALib}.
Implicit Types (self : IStrategy) (df : DataFrame) (m : Mask) (md : Dict)
  (c : string).

Lemma with_indicators_agree self df df' real c :
  pd.index df = pd.index df' ->
  (c ∉ indicator_columns -> pd.getitem df c = pd.getitem df' c) ->
  pd.getitem (with_indicators self df real) c
  = pd.getitem (with_indicators self df' real) c.
Proof.
  intros Hidx Hc.
  destruct (decide (c ∈ indicator_columns)) as [Hin | Hout].
  - unfold indicator_columns in Hin. rewrite !elem_of_cons, elem_of_nil in Hin.
    unfold pd.getitem, with_indicators; cbn [pd.columns]. rewrite Hidx.
    destruct Hin as [-> | [-> | [-> | [-> | [-> | [-> | [-> | [-> | []]]]]]]]];
      repeat (rewrite ?lookup_insert_eq; rewrite ?lookup_insert_ne by done);
      reflexivity.
  - unfold pd.getitem. rewrite !with_indicators_other by assumption. auto.
Qed.

Lemma loc_setitem_agree df df' m c0 v c :
  pd.index df = pd.index df' ->
  pd.getitem df c0 = pd.getitem df' c0 ->
  pd.getitem df c = pd.getitem df' c ->
  pd.getitem (pd.loc_setitem df m c0 v) c
  = pd.getitem (pd.loc_setitem df' m c0 v) c.
Proof.
  unfold pd.getitem, pd.loc_setitem; cbn [pd.columns].
  intros -> -> Hc. destruct (decide (c0 = c)) as [-> | Hne].
  - now rewrite !lookup_insert_eq.
  - now rewrite !lookup_insert_ne.
Qed.

End agreement.

(** X11: the three methods read the closing price and nothing else of the
    candles.  On two frames with as many rows that agree on [close] (and on
    the signal columns, if they have any), whatever their [open], [high],
    [low], [volume] or other columns are, the run leaves the same eight
    indicator columns and the same two signal columns. *)
Theorem only_close_is_read `{TA : TALib} (self : IStrategy)
    (dataframe dataframe' df df' : DataFrame) (metadata : Dict) :
  agree_on ("close" :: signal_columns) dataframe dataframe' ->
  analyze_ticker self dataframe metadata = Some df ->
  analyze_ticker self dataframe' metadata = Some df' ->
  agree_on (indicator_columns ++ signal_columns) df df'.
Proof.
  intros [Hidx Hsame] H H'. unfold analyze_ticker in H, H'.
  rewrite populate_indicators_eq in H, H'.
  assert (Hclose : pd.getitem dataframe "close" = pd.getitem dataframe' "close")
    by (apply Hsame; rewrite elem_of_cons; auto).
  rewrite <- Hclose in H'.
  destruct (pd.getitem dataframe "close") as [real|]; simpl in H, H';
    [| discriminate].
  set (dfi := with_indicators self dataframe real) in *.
  set (dfi' := with_indicators self dataframe' real) in *.
  assert (Hi : forall c, c ∈ "close" :: indicator_columns ++ signal_columns ->
                         pd.getitem dfi c = pd.getitem dfi' c).
  { intros c Hc. apply with_indicators_agree; [exact Hidx |].
    intros Hout. apply Hsame.
    rewrite elem_of_cons, elem_of_app in Hc. rewrite elem_of_cons. tauto. }
  unfold populate_entry_trend in H, H'.
  rewrite <- (entry_mask_ext self dfi dfi') in H'.
  2: { intros c Hc. apply Hi. revert Hc.
       unfold entry_columns, indicator_columns, signal_columns.
       rewrite !elem_of_cons, elem_of_app, !elem_of_cons, !elem_of_nil. tauto. }
  destruct (entry_mask self dfi) as [m1|]; simpl in H, H'; [| discriminate].
  set (df1 := pd.loc_setitem dfi m1 "enter_long" (Float.of_int 1)) in *.
  set (df1' := pd.loc_setitem dfi' m1 "enter_long" (Float.of_int 1)) in *.
  assert (H1 : forall c, c ∈ "close" :: indicator_columns ++ signal_columns ->
                         pd.getitem df1 c = pd.getitem df1' c).
  { intros c Hc. apply loc_setitem_agree; [exact Hidx | | now apply Hi].
    apply Hi. unfold signal_columns.
    rewrite elem_of_cons, elem_of_app, !elem_of_cons. tauto. }
  unfold populate_exit_trend in H, H'.
  rewrite <- (exit_mask_ext self df1 df1') in H'.
  2: { intros c Hc. apply H1. revert Hc.
       unfold exit_columns, indicator_columns, signal_columns.
       rewrite !elem_of_cons, elem_of_app, !elem_of_cons, !elem_of_nil. tauto. }
  destruct (exit_mask self df1) as [m2|]; simpl in H, H'; [| discriminate].
  injection H as <-. injection H' as <-.
  split; [exact Hidx |].
  intros c Hc. apply loc_setitem_agree; [exact Hidx | |].
  - apply H1. unfold signal_columns.
    rewrite elem_of_cons, elem_of_app, !elem_of_cons. tauto.
  - apply H1. rewrite elem_of_cons. auto.
Qed.

Lemma only_close_is_read_witness :
  agree_on (indicator_columns ++ signal_columns)
    (spec_run falling)
    (default falling_with_volume
       (analyze_ticker (TA := ta_spec.spec) SteddockMacdEma200Rsi
          falling_with_volume ∅)).
Proof.
  apply (only_close_is_read (TA := ta_spec.spec) SteddockMacdEma200Rsi
           (closes falling) falling_with_volume _ _ ∅).
  - split; [reflexivity |]. intros c Hc.
    unfold signal_columns in Hc. rewrite !elem_of_cons, elem_of_nil in Hc.
    destruct Hc as [-> | [-> | [-> | []]]]; reflexivity.
  - vm_compute. reflexivity.
  - vm_compute. reflexivity.
Defined.

(** ** The parameters *)

(** X12: an inverted RSI band silences the entry rule.  If [rsi_entry_high]
    is below [rsi_entry_low], no candle of any series gets [enter_long]: the
    configuration is accepted and every cell of the column stays unset. *)
Theorem inverted_band_never_enters `{TA : TALib} (self : IStrategy)
    (candles df : DataFrame) (metadata : Dict) (t : nat) :
  (value (rsi_entry_high self) < value (rsi_entry_low self))%Z ->
  pd.wf candles -> no_signals candles ->
  analyze_ticker self candles metadata = Some df ->
  Float.isnan (pd.cell df "enter_long" t).
Proof.
  intros Hinv Hwf Hfresh Hrun.
  destruct (analyze_ticker_inv self candles metadata df Hwf Hrun)
    as (dfi & Hind & _).
  destruct (analyze_ticker_signals self candles metadata df dfi t
              Hwf Hfresh Hind Hrun) as (_ & Hno & _).
  apply Hno. intros (_ & _ & _ & _ & Hlo & Hhi). unfold Float.ge in Hlo.
  destruct (pd.cell dfi "rsi" t) as [q|]; simpl in Hlo, Hhi; [| exact Hlo].
  pose proof (Qle_trans _ _ _ Hlo Hhi) as Hle.
  rewrite <- Zle_Qle in Hle. lia.
Qed.

Lemma inverted_band_never_enters_witness :
  Float.isnan
    (pd.cell (default (closes dip_and_recover)
                (analyze_ticker (TA := ta_spec.spec) inverted_band
                   (closes dip_and_recover) ∅))
       "enter_long" 200).
Proof.
  apply (inverted_band_never_enters (TA := ta_spec.spec) inverted_band
           (closes dip_and_recover) _ ∅ 200).
  - vm_compute. reflexivity.
  - apply wf_closes.
  - split; reflexivity.
  - vm_compute. reflexivity.
Defined.

Section parameters.

Context `{TA : TALib}.
Implicit Types (self : IStrategy) (df : DataFrame) (t : nat) (x y z : float).

Lemma le_trans x y z : (x <= y)%float -> (y <= z)%float -> (x <= z)%float.
Proof. destruct x, y, z; simpl; try easy. apply Qle_trans. Qed.

(** Of the configuration, [populate_indicators] reads [ema_length] only. *)
Lemma with_indicators_ema_length self self' df real :
  ema_length self' = ema_length self ->
  with_indicators self' df real = with_indicators self df real.
Proof. intros H. unfold with_indicators. now rewrite H. Qed.

Lemma entry_rule_wider self self' df t :
  (value (rsi_entry_low self') <= value (rsi_entry_low self))%Z ->
  (value (rsi_entry_high self) <= value (rsi_entry_high self'))%Z ->
  entry_rule self df t -> entry_rule self' df t.
Proof.
  intros Hlo Hhi (H1 & H2 & H3 & H4 & H5 & H6).
  repeat (split; [assumption |]). split.
  - exact (le_trans _ _ _ (of_int_le _ _ Hlo) H5).
  - exact (le_trans _ _ _ H6 (of_int_le _ _ Hhi)).
Qed.

Lemma exit_rule_higher self self' df t :
  (rsi_exit self <= rsi_exit self')%Z ->
  exit_rule self df t -> exit_rule self' df t.
Proof.
  intros Hle [H | [H | H]]; [left; exact H | | right; right; exact H].
  right; left. exact (lt_le_trans _ _ _ H (of_int_le _ _ Hle)).
Qed.

End parameters.

(** X13: the signals grow with the parameters.  With the same [ema_length],
    lowering [rsi_entry_low] or raising [rsi_entry_high] never removes an
    entry signal, and raising [rsi_exit] never removes an exit signal: every
    cell set under the narrower configuration is set under the wider one. *)
Theorem wider_parameters_keep_signals `{TA : TALib} (self self' : IStrategy)
    (candles df df' : DataFrame) (metadata : Dict) (t : nat) :
  ema_length self' = ema_length self ->
  (value (rsi_entry_low self') <= value (rsi_entry_low self))%Z ->
  (value (rsi_entry_high self) <= value (rsi_entry_high self'))%Z ->
  (rsi_exit self <= rsi_exit self')%Z ->
  pd.wf candles -> no_signals candles ->
  analyze_ticker self candles metadata = Some df ->
  analyze_ticker self' candles metadata = Some df' ->
  (is_set (pd.cell df "enter_long" t) -> is_set (pd.cell df' "enter_long" t))
  /\ (is_set (pd.cell df "exit_long" t) -> is_set (pd.cell df' "exit_long" t)).
Proof.
  intros Hema Hlo Hhi Hexit Hwf Hfresh Hrun Hrun'.
  destruct (analyze_ticker_inv self candles metadata df Hwf Hrun)
    as (dfi & Hind & _).
  destruct (analyze_ticker_inv self' candles metadata df' Hwf Hrun')
    as (dfi' & Hind' & _).
  destruct (analyze_ticker_signals self candles metadata df dfi t
              Hwf Hfresh Hind Hrun) as (Hin & _ & Hout & _).
  destruct (analyze_ticker_signals self' candles metadata df' dfi' t
              Hwf Hfresh Hind' Hrun') as (Hin' & _ & Hout' & _).
  apply populate_indicators_inv in Hind as (real & Hclose & ->).
  apply populate_indicators_inv in Hind' as (real' & Hclose' & ->).
  rewrite Hclose in Hclose'. injection Hclose' as <-.
  rewrite (with_indicators_ema_length self self') in Hin', Hout'
    by exact Hema.
  split; intros Hset.
  - apply Hin', (entry_rule_wider self self'); auto. now apply Hin.
  - apply Hout', (exit_rule_higher self self'); auto. now apply Hout.
Qed.

Lemma wider_parameters_keep_signals_witness :
  is_set (pd.cell (default (closes dip_and_recover)
                     (analyze_ticker (TA := ta_spec.spec) wider_band
                        (closes dip_and_recover) ∅))
            "enter_long" 200)
  /\ is_set (pd.cell (default (closes dip_and_recover)
                        (analyze_ticker (TA := ta_spec.spec) wider_band
                           (closes dip_and_recover) ∅))
               "exit_long" 197).
Proof.
  destruct (wider_parameters_keep_signals (TA := ta_spec.spec)
              SteddockMacdEma200Rsi wider_band (closes dip_and_recover)
              (spec_run dip_and_recover)
              (default (closes dip_and_recover)
                 (analyze_ticker (TA := ta_spec.spec) wider_band
                    (closes dip_and_recover) ∅))
              ∅ 200) as [Hin _];
    [reflexivity | simpl; lia | simpl; lia | simpl; lia | apply wf_closes
    | split; reflexivity | vm_compute; reflexivity | vm_compute; reflexivity |].
  destruct (wider_parameters_keep_signals (TA := ta_spec.spec)
              SteddockMacdEma200Rsi wider_band (closes dip_and_recover)
              (spec_run dip_and_recover)
              (default (closes dip_and_recover)
                 (analyze_ticker (TA := ta_spec.spec) wider_band
                    (closes dip_and_recover) ∅))
              ∅ 197) as [_ Hout];
    [reflexivity | simpl; lia | simpl; lia | simpl; lia | apply wf_closes
    | split; reflexivity | vm_compute; reflexivity | vm_compute; reflexivity |].
  split; [apply Hin | apply Hout]; vm_compute; reflexivity.
Defined.

(** X14: the declared search space is safe.  For every configuration whose
    RSI bounds lie in the ranges that the class declares ([45..50] and
    [50..55]) with [rsi_exit = 30], the entry band is never inverted (it
    always contains 50), and no candle gets both [enter_long] and
    [exit_long]. *)
Theorem declared_space_is_safe `{TA : TALib} (self : IStrategy)
    (candles df : DataFrame) (metadata : Dict) (t : nat) :
  declared_space self ->
  pd.wf candles -> no_signals candles ->
  analyze_ticker self candles metadata = Some df ->
  (value (rsi_entry_low self) <= 50 <= value (rsi_entry_high self))%Z
  /\ ~ (is_set (pd.cell df "enter_long" t)
        /\ is_set (pd.cell df "exit_long" t)).
Proof.
  intros (Hl1 & Hh1 & Hl2 & Hh2 & Hexit & [Hlo1 Hlo2] & [Hhi1 Hhi2])
    Hwf Hfresh Hrun.
  split; [lia |]. intros [Hin Hout].
  apply (signals_exclude self candles df metadata t); auto. lia.
Qed.

Lemma declared_space_is_safe_witness :
  (value (rsi_entry_low SteddockMacdEma200Rsi) <= 50
   <= value (rsi_entry_high SteddockMacdEma200Rsi))%Z
  /\ ~ (is_set (pd.cell (spec_run dip_and_recover) "enter_long" 200)
        /\ is_set (pd.cell (spec_run dip_and_recover) "exit_long" 200)).
Proof.
  apply (declared_space_is_safe (TA := ta_spec.spec) SteddockMacdEma200Rsi
           (closes dip_and_recover) (spec_run dip_and_recover) ∅ 200).
  - unfold declared_space, in_space. simpl. lia.
  - apply wf_closes.
  - split; reflexivity.
  - vm_compute. reflexivity.
Defined.

(** ** The three methods in sequence, as a whole *)

(** X16: the frame of the whole run.  On a well-formed frame the run keeps
    the number of rows, leaves the frame well-formed, leaves each of the
    eight indicator columns and of the two signal columns with one cell per
    row, and leaves every other column (the candles) as it was. *)
Theorem analyze_ticker_frame `{TA : TALib} (self : IStrategy)
    (dataframe df : DataFrame) (metadata : Dict) :
  pd.wf dataframe ->
  analyze_ticker self dataframe metadata = Some df ->
  pd.wf df
  /\ pd.index df = pd.index dataframe
  /\ (forall c, c ∈ indicator_columns ++ signal_columns ->
        exists s, pd.getitem df c = Some s /\ length s = pd.index dataframe)
  /\ (forall c, c ∉ indicator_columns ++ signal_columns ->
        pd.getitem df c = pd.getitem dataframe c).
Proof.
  intros Hwf Hrun.
  destruct (analyze_ticker_inv self dataframe metadata df Hwf Hrun)
    as (dfi & Hind & Hwf' & Hidx & Hcols & _).
  apply populate_indicators_inv in Hind as (real & Hclose & ->).
  split; [exact Hwf' |]. split; [exact Hidx |]. split.
  - intros c Hc.
    assert (Hsome : is_Some (pd.getitem df c)).
    { rewrite elem_of_app in Hc. destruct Hc as [Hc | Hc].
      - unfold pd.getitem. rewrite Hcols.
        + unfold indicator_columns in Hc.
          rewrite !elem_of_cons, elem_of_nil in Hc.
          unfold with_indicators; cbn [pd.columns].
          destruct Hc
            as [-> | [-> | [-> | [-> | [-> | [-> | [-> | [-> | []]]]]]]]];
            repeat (rewrite ?lookup_insert_eq;
                    rewrite ?lookup_insert_ne by done);
            eauto.
        + intros ->. revert Hc. unfold indicator_columns.
          rewrite !elem_of_cons, elem_of_nil. intuition discriminate.
        + intros ->. revert Hc. unfold indicator_columns.
          rewrite !elem_of_cons, elem_of_nil. intuition discriminate.
      - unfold analyze_ticker in Hrun.
        rewrite populate_indicators_eq, Hclose in Hrun; simpl in Hrun.
        unfold populate_entry_trend, populate_exit_trend in Hrun.
        destruct (entry_mask self _) as [m1|]; simpl in Hrun; [| discriminate].
        destruct (exit_mask self _) as [m2|]; simpl in Hrun; [| discriminate].
        injection Hrun as <-.
        unfold signal_columns in Hc. rewrite !elem_of_cons, elem_of_nil in Hc.
        unfold pd.getitem, pd.loc_setitem; cbn [pd.columns].
        destruct Hc as [-> | [-> | []]];
          repeat (rewrite ?lookup_insert_eq;
                  rewrite ?lookup_insert_ne by done);
          eauto. }
    destruct Hsome as [s Hs]. exists s. split; [exact Hs |].
    rewrite <- Hidx. exact (Hwf' c s Hs).
  - intros c Hc. rewrite elem_of_app in Hc. unfold pd.getitem.
    rewrite Hcols, with_indicators_other; [reflexivity | tauto | |];
      intros ->; apply Hc; right; unfold signal_columns;
      rewrite !elem_of_cons; tauto.
Qed.

Lemma analyze_ticker_frame_witness :
  pd.wf (spec_run falling)
  /\ pd.index (spec_run falling) = pd.index (closes falling)
  /\ (forall c, c ∈ indicator_columns ++ signal_columns ->
        exists s, pd.getitem (spec_run falling) c = Some s
                  /\ length s = pd.index (closes falling))
  /\ (forall c, c ∉ indicator_columns ++ signal_columns ->
        pd.getitem (spec_run falling) c = pd.getitem (closes falling) c).
Proof.
  apply (analyze_ticker_frame (TA := ta_spec.spec) SteddockMacdEma200Rsi
           (closes falling) (spec_run falling) ∅).
  - apply wf_closes.
  - vm_compute. reflexivity.
Defined.

(** X17: the run is idempotent.  When the three methods have run on a
    frame, running them again on the frame that they left (the methods change
    their argument in place) returns that same frame: the indicators are
    recomputed from the unchanged [close], and every signal that a rule would
    set is set already. *)
Theorem analyze_ticker_idempotent `{TA : TALib} (self : IStrategy)
    (dataframe df : DataFrame) (metadata metadata' : Dict) :
  analyze_ticker self dataframe metadata = Some df ->
  analyze_ticker self df metadata' = Some df.
Proof.
  intros H. unfold analyze_ticker in H.
  rewrite populate_indicators_eq in H.
  destruct (pd.getitem dataframe "close") as [real|] eqn:Hclose; simpl in H;
    [| discriminate].
  set (dfi := with_indicators self dataframe real) in *.
  unfold populate_entry_trend in H.
  destruct (entry_mask self dfi) as [m1|] eqn:Hm1; simpl in H;
    [| discriminate].
  set (df1 := pd.loc_setitem dfi m1 "enter_long" (Float.of_int 1)) in *.
  unfold populate_exit_trend in H.
  destruct (exit_mask self df1) as [m2|] eqn:Hm2; simpl in H; [| discriminate].
  injection H as <-.
  set (df2 := pd.loc_setitem df1 m2 "exit_long" (Float.of_int 1)).
  assert (Hcols : forall c, c <> "enter_long" -> c <> "exit_long" ->
                            pd.getitem df2 c = pd.getitem dfi c).
  { intros c H1 H2. unfold pd.getitem, df2, df1.
    now rewrite !columns_loc_setitem_ne by congruence. }
  assert (Hind : with_indicators self df2 real = df2).
  { apply (with_indicators_absorb self dataframe); [reflexivity |].
    intros c Hc. apply Hcols; intros ->; revert Hc;
      unfold indicator_columns; rewrite !elem_of_cons, elem_of_nil;
      intuition discriminate. }
  unfold analyze_ticker. rewrite populate_indicators_eq.
  rewrite Hcols by discriminate. unfold dfi at 1. unfold pd.getitem.
  rewrite with_indicators_other by not_indicator.
  unfold pd.getitem in Hclose. rewrite Hclose; simpl. rewrite Hind.
  unfold populate_entry_trend.
  rewrite (entry_mask_ext self df2 dfi), Hm1; simpl.
  2: { intros c Hc. apply Hcols; intros ->; revert Hc;
       unfold entry_columns; rewrite !elem_of_cons, elem_of_nil;
       intuition discriminate. }
  assert (Hin : pd.loc_setitem df2 m1 "enter_long" (Float.of_int 1) = df2).
  { eapply loc_setitem_absorb. unfold df2.
    rewrite columns_loc_setitem_ne by discriminate.
    unfold df1, pd.loc_setitem; simpl. apply lookup_insert_eq. }
  rewrite Hin. unfold populate_exit_trend.
  rewrite (exit_mask_ext self df2 df1), Hm2; simpl.
  2: { intros c Hc. unfold pd.getitem, df2.
       apply columns_loc_setitem_ne. intros <-. revert Hc.
       unfold exit_columns; rewrite !elem_of_cons, elem_of_nil.
       intuition discriminate. }
  f_equal. eapply loc_setitem_absorb.
  unfold df2, pd.loc_setitem; simpl. apply lookup_insert_eq.
Qed.

Lemma analyze_ticker_idempotent_witness :
  analyze_ticker (TA := ta_spec.spec) SteddockMacdEma200Rsi
    (spec_run dip_and_recover) ∅
  = Some (spec_run dip_and_recover).
Proof.
  apply (analyze_ticker_idempotent (TA := ta_spec.spec) SteddockMacdEma200Rsi
           (closes dip_and_recover) (spec_run dip_and_recover) ∅ ∅).
  vm_compute. reflexivity.
Defined.

(** X18: [populate_indicators] provides what the rules read.  On the frame
    that it returns, every column that the entry conditions and the exit
    conditions read is there, under the name by which they read it, so both
    masks can be computed: no [KeyError] for a missing or misnamed column. *)
Theorem rule_columns_available `{TA : TALib} (self : IStrategy)
    (dataframe df : DataFrame) (metadata : Dict) :
  populate_indicators self dataframe metadata = Some df ->
  (forall c, c ∈ entry_columns ++ exit_columns -> is_Some (pd.getitem df c))
  /\ is_Some (entry_mask self df)
  /\ is_Some (exit_mask self df).
Proof.
  intros H. apply populate_indicators_inv in H as (real & Hclose & ->).
  destruct (with_indicators_columns self dataframe real Hclose) as [He Hx].
  split; [| split; [now apply entry_mask_is_Some | now apply exit_mask_is_Some]].
  intros c Hc. rewrite elem_of_app in Hc. unfold has_columns in He, Hx.
  rewrite Forall_forall in He, Hx. destruct Hc; auto.
Qed.

Lemma rule_columns_available_witness :
  (forall c, c ∈ entry_columns ++ exit_columns ->
     is_Some (pd.getitem (spec_indicators falling) c))
  /\ is_Some (entry_mask SteddockMacdEma200Rsi (spec_indicators falling))
  /\ is_Some (exit_mask SteddockMacdEma200Rsi (spec_indicators falling)).
Proof.
  apply (rule_columns_available (TA := ta_spec.spec) SteddockMacdEma200Rsi
           (closes falling) (spec_indicators falling) ∅).
  vm_compute. reflexivity.
Defined.
